(** * bang: shebang synthesis and application

    A shallow embedding of [bin/bang.js] (both revisions of the script)
    and the properties of its shebang synthesizer, file applier and
    argument parser. *)

From stdpp Require Import gmap list.
From Stdlib Require Import String Ascii NArith.

Local Open Scope N_scope.
Local Open Scope list_scope.

(** ** JavaScript strings

    A JavaScript string is a sequence of UTF-16 code units.  A code unit is
    an [N]; the string functions do not depend on the bound [< 65536], and
    the statements about the bytes of a file ask for well-formed text where
    they need it. *)

Definition jsstring := list N.

(** An ASCII literal of the source as a [jsstring]. *)
Fixpoint lit (s : string) : jsstring :=
  match s with
  | EmptyString => []
  | String a s' => N_of_ascii a :: lit s'
  end.
Arguments lit s%_string : simpl never.

Definition LF : N := 10.
Definition SPACE : N := 32.
Definition DQUOTE : N := 34.
Definition HYPHEN : N := 45.
Definition LETTER_S : N := 83.

(** The class [\s] of ECMAScript regular expressions, which is also what
    [String.prototype.trim] removes: WhiteSpace and LineTerminator. *)
Definition isWhiteSpace (c : N) : bool :=
  (9 <=? c) && (c <=? 13)
  || (c =? 32) || (c =? 160) || (c =? 5760)
  || (8192 <=? c) && (c <=? 8202)
  || (c =? 8232) || (c =? 8233) || (c =? 8239) || (c =? 8287)
  || (c =? 12288) || (c =? 65279).

(** The class [\d]. *)
Definition isDigit (c : N) : bool := (48 <=? c) && (c <=? 57).

(** The class [\w], without the unicode and ignoreCase flags: [A-Za-z0-9_]. *)
Definition isWordChar (c : N) : bool :=
  (65 <=? c) && (c <=? 90) || (97 <=? c) && (c <=? 122) || isDigit c || (c =? 95).

(** [s.startsWith(prefix)] *)
Fixpoint startsWith (s prefix : jsstring) {struct prefix} : bool :=
  match prefix, s with
  | [], _ => true
  | p :: prefix', c :: s' => (c =? p) && startsWith s' prefix'
  | _ :: _, [] => false
  end.

(** [s.includes(sub)] *)
Fixpoint includes (s sub : jsstring) : bool :=
  startsWith s sub ||
  match s with
  | [] => false
  | _ :: s' => includes s' sub
  end.

(** [s.trimStart()], [s.trimEnd()] and [s.trim()] *)
Fixpoint trimStart (s : jsstring) : jsstring :=
  match s with
  | c :: s' => if isWhiteSpace c then trimStart s' else s
  | [] => []
  end.

Definition trimEnd (s : jsstring) : jsstring := rev (trimStart (rev s)).

Definition trim (s : jsstring) : jsstring := trimEnd (trimStart s).

(** [s.split(/\n/g)], for a separator that is one code unit: the list of
    segments is never empty, and the empty string splits into one empty
    segment. *)
Fixpoint split (sep : N) (s : jsstring) : list jsstring :=
  match s with
  | [] => [[]]
  | c :: s' =>
      if c =? sep then [] :: split sep s'
      else match split sep s' with
           | seg :: segs => (c :: seg) :: segs
           | [] => [[c]]
           end
  end.

(** [a.slice(1)] *)
Definition slice1 {A} (a : list A) : list A := drop 1 a.

(** [a.join(sep)] *)
Fixpoint join (sep : jsstring) (a : list jsstring) : jsstring :=
  match a with
  | [] => []
  | [x] => x
  | x :: a' => x ++ sep ++ join sep a'
  end.

(** [executable.replace(/^-S\s+/, '')]: the pattern is anchored at the start
    of the string and is not global, so at most the one match at index 0 is
    replaced; [\s+] is greedy and takes the whole run of white space that
    follows [-S], which has to hold one character at least. *)
Definition replace_dashS (executable : jsstring) : jsstring :=
  match executable with
  | c1 :: c2 :: c :: rest =>
      if (c1 =? HYPHEN) && (c2 =? LETTER_S) && isWhiteSpace c
      then trimStart rest
      else executable
  | _ => executable
  end.

(** [arg.match(/^--?[\w\d]+$/)] as a truth value: one hyphen, an optional
    second one, then word characters only, one at least, up to the end of
    the string (there is no multiline flag). *)
Definition wordChars1 (s : jsstring) : bool :=
  match s with
  | [] => false
  | _ :: _ => forallb (fun c => isWordChar c || isDigit c) s
  end.

Definition match_option (arg : jsstring) : bool :=
  match arg with
  | h :: rest =>
      (h =? HYPHEN)
      && (match rest with
          | h2 :: rest' => (h2 =? HYPHEN) && wordChars1 rest'
          | [] => false
          end
          || wordChars1 rest)
  | [] => false
  end.

(** ** Text in files: UTF-8

    [readFileSync(path, 'utf8')] decodes the bytes of a file to a string
    and [writeFileSync(path, string)] encodes a string to bytes.  A byte
    is an [N]; the decoder takes every number above [0xF4] as a byte that
    starts no sequence. *)

(** U+FFFD, which stands in for what cannot be decoded or encoded. *)
Definition REPLACEMENT : N := 0xFFFD.

Definition is_high_surrogate (c : N) : bool := (0xD800 <=? c) && (c <=? 0xDBFF).
Definition is_low_surrogate (c : N) : bool := (0xDC00 <=? c) && (c <=? 0xDFFF).

(** The bytes of a code point. *)
Definition utf8_bytes (cp : N) : list N :=
  if cp <? 0x80 then [cp]
  else if cp <? 0x800 then [0xC0 + cp / 64; 0x80 + cp mod 64]
  else if cp <? 0x10000
  then [0xE0 + cp / 4096; 0x80 + (cp / 64) mod 64; 0x80 + cp mod 64]
  else [0xF0 + cp / 262144; 0x80 + (cp / 4096) mod 64;
        0x80 + (cp / 64) mod 64; 0x80 + cp mod 64].

(** The encoder reads code units with at most one high surrogate pending:
    a high surrogate and the low surrogate after it are one code point, and
    a surrogate without its partner is written as U+FFFD. *)
Definition enc_start (c : N) : list N * option N :=
  if is_high_surrogate c then ([], Some c)
  else if is_low_surrogate c then (utf8_bytes REPLACEMENT, None)
  else (utf8_bytes c, None).

Definition enc_step (pending : option N) (c : N) : list N * option N :=
  match pending with
  | None => enc_start c
  | Some h =>
      if is_low_surrogate c
      then (utf8_bytes (0x10000 + (h - 0xD800) * 1024 + (c - 0xDC00)), None)
      else let '(out, pending') := enc_start c in (utf8_bytes REPLACEMENT ++ out, pending')
  end.

Definition enc_finish (pending : option N) : list N :=
  match pending with
  | None => []
  | Some _ => utf8_bytes REPLACEMENT
  end.

Fixpoint utf8_encode_from (pending : option N) (s : jsstring) : list N :=
  match s with
  | [] => enc_finish pending
  | c :: s' => let '(out, pending') := enc_step pending c in out ++ utf8_encode_from pending' s'
  end.

(** What [writeFileSync] stores for a string. *)
Definition utf8_encode : jsstring -> list N := utf8_encode_from None.

(** The decoder, as the Encoding Standard has it: after the first byte of
    a sequence it knows how many bytes are to come, the code point so far,
    and the range of the next byte, which is narrower than [80..BF] after
    [E0], [ED], [F0] and [F4].  A byte out of range ends the sequence with
    U+FFFD and is read again as the start of a sequence. *)
Inductive first_range := Any | From_A0 | To_9F | From_90 | To_8F.

Inductive dec_state := Start | Cont (more : nat) (cp : N) (r : first_range).

Definition in_range (r : first_range) (b : N) : bool :=
  match r with
  | Any => (0x80 <=? b) && (b <=? 0xBF)
  | From_A0 => (0xA0 <=? b) && (b <=? 0xBF)
  | To_9F => (0x80 <=? b) && (b <=? 0x9F)
  | From_90 => (0x90 <=? b) && (b <=? 0xBF)
  | To_8F => (0x80 <=? b) && (b <=? 0x8F)
  end.

Definition dec_start (b : N) : list N * dec_state :=
  if b <=? 0x7F then ([b], Start)
  else if (0xC2 <=? b) && (b <=? 0xDF) then ([], Cont 0 (b - 0xC0) Any)
  else if (0xE0 <=? b) && (b <=? 0xEF)
  then ([], Cont 1 (b - 0xE0)
              (if b =? 0xE0 then From_A0 else if b =? 0xED then To_9F else Any))
  else if (0xF0 <=? b) && (b <=? 0xF4)
  then ([], Cont 2 (b - 0xF0)
              (if b =? 0xF0 then From_90 else if b =? 0xF4 then To_8F else Any))
  else ([REPLACEMENT], Start).

Definition dec_step (st : dec_state) (b : N) : list N * dec_state :=
  match st with
  | Start => dec_start b
  | Cont more cp r =>
      if in_range r b
      then
        let cp' := cp * 64 + (b - 0x80) in
        match more with
        | O => ([cp'], Start)
        | S more' => ([], Cont more' cp' Any)
        end
      else let '(out, st') := dec_start b in (REPLACEMENT :: out, st')
  end.

Definition dec_finish (st : dec_state) : list N :=
  match st with
  | Start => []
  | Cont _ _ _ => [REPLACEMENT]
  end.

(** The code points of a sequence of bytes. *)
Fixpoint decode_points (st : dec_state) (bytes : list N) : list N :=
  match bytes with
  | [] => dec_finish st
  | b :: bytes' => let '(out, st') := dec_step st b in out ++ decode_points st' bytes'
  end.

(** The UTF-16 code units of a code point. *)
Definition code_units (cp : N) : jsstring :=
  if cp <? 0x10000 then [cp]
  else [0xD800 + (cp - 0x10000) / 1024; 0xDC00 + (cp - 0x10000) mod 1024].

(** What [readFileSync(path, 'utf8')] returns for the bytes of a file; a
    byte order mark is kept. *)
Definition utf8_decode (bytes : list N) : jsstring :=
  flat_map code_units (decode_points Start bytes).

(** ** The process and its file system

    A file is its bytes and its permission bits; its text is what
    [readFileSync(path, 'utf8')] returns for these bytes.  The file system
    maps resolved paths to files, and [resolve] stands for the path
    resolution of the operating system (working directory, [.] and [..],
    links): two path strings name the same file exactly when they resolve
    alike.  Directories and access errors are not modelled.  The console
    keeps the lines printed with [console.log] and [console.error], in
    order. *)

Record file := File { bytes : list N; mode : N }.

Definition content (f : file) : jsstring := utf8_decode (bytes f).

Record store := Store {
  entries : gmap jsstring file;
  resolve : jsstring -> jsstring
}.

(** The file that a path string names, and the store with that file
    replaced. *)
#[global] Instance store_lookup : Lookup jsstring file store :=
  fun path s => entries s !! resolve s path.

#[global] Instance store_insert : Insert jsstring file store :=
  fun path f s => Store (<[resolve s path := f]> (entries s)) (resolve s).

Inductive stream := Stdout | Stderr.

Record world := World {
  files : store;
  console : list (stream * jsstring)
}.

(** How a computation ends: normally, by an exception that propagates, or
    by [process.exit(code)]. *)
Inductive completion (A : Type) :=
| Normal (a : A)
| Throw (message : jsstring)
| Exit (code : N).
Arguments Normal {A} a.
Arguments Throw {A} message.
Arguments Exit {A} code.

Definition proc (A : Type) : Type := world -> completion A * world.

Definition ret {A} (a : A) : proc A := fun w => (Normal a, w).

Definition bind {A B} (m : proc A) (k : A -> proc B) : proc B :=
  fun w =>
    match m w with
    | (Normal a, w') => k a w'
    | (Throw e, w') => (Throw e, w')
    | (Exit c, w') => (Exit c, w')
    end.

Declare Scope proc_scope.
Delimit Scope proc_scope with proc.
Notation "x <- m ;; k" := (bind m (fun x => k))
  (at level 100, m at next level, right associativity) : proc_scope.
Notation "m ;; k" := (bind m (fun _ => k))
  (at level 100, right associativity) : proc_scope.
Local Open Scope proc_scope.

Definition process_exit {A} (code : N) : proc A := fun w => (Exit code, w).

Definition throw {A} (message : jsstring) : proc A := fun w => (Throw message, w).

Definition print (to : stream) (line : jsstring) : proc unit :=
  fun w => (Normal tt, World (files w) (console w ++ [(to, line)])).

Definition console_log : jsstring -> proc unit := print Stdout.
Definition console_error : jsstring -> proc unit := print Stderr.

(** [fs.existsSync(path)] *)
Definition existsSync (path : jsstring) : proc bool :=
  fun w => (Normal (bool_decide (is_Some (files w !! path))), w).

(** [fs.readFileSync(path, 'utf8')]: throws when there is no such file. *)
Definition readFileSync (path : jsstring) : proc jsstring :=
  fun w =>
    match files w !! path with
    | Some f => (Normal (content f), w)
    | None => (Throw (lit "ENOENT: no such file or directory, open '" ++ path ++ lit "'"), w)
    end.

(** The permission bits of a file that [writeFileSync] creates: [0o666]
    without the bits of the process's umask, here the usual [0o022]. *)
Definition created_mode : N := 420.

(** [fs.writeFileSync(path, data)]: replaces the bytes of the file by the
    UTF-8 form of the string and keeps its permission bits; creates the file
    when there is none. *)
Definition writeFileSync (path data : jsstring) : proc unit :=
  fun w =>
    let m := match files w !! path with
             | Some f => mode f
             | None => created_mode
             end in
    (Normal tt, World (<[path := File (utf8_encode data) m]> (files w)) (console w)).

(** [fs.chmodSync(path, mode)]: throws when there is no such file. *)
Definition chmodSync (path : jsstring) (m : N) : proc unit :=
  fun w =>
    match files w !! path with
    | Some f => (Normal tt, World (<[path := File (bytes f) m]> (files w)) (console w))
    | None => (Throw (lit "ENOENT: no such file or directory, chmod '" ++ path ++ lit "'"), w)
    end.

(** [0o755] *)
Definition o755 : N := 493.

(** The nine permission bits of a mode as [rwxrwxrwx], most significant
    first. *)
Definition permission_bits (m : N) : list bool :=
  map (N.testbit m) [8; 7; 6; 5; 4; 3; 2; 1; 0].

(** [try { body } catch (e) { handler(e.message) }] *)
Definition try_catch {A} (body : proc A) (handler : jsstring -> proc A) : proc A :=
  fun w =>
    match body w with
    | (Throw e, w') => handler e w'
    | r => r
    end.

(** [for (const x of xs) { body(x) }] *)
Fixpoint for_of {A} (xs : list A) (body : A -> proc unit) : proc unit :=
  match xs with
  | [] => ret tt
  | x :: xs' => body x;; for_of xs' body
  end.

(** The exit code of the process when the script ends in the given way: an
    exception that nothing catches ends the process with code 1. *)
Definition exit_code {A} (c : completion A) : N :=
  match c with
  | Normal _ => 0
  | Throw _ => 1
  | Exit code => code
  end.

(** ** The earlier revision of the script *)

Module V1.

Definition createShebang (executable : jsstring) : jsstring :=
  (* Remove leading -S if user already provided it *)
  let cleanExecutable := replace_dashS executable in
  (* If executable contains arguments, use env -S *)
  if includes cleanExecutable (lit " ")
  then lit "#!/usr/bin/env -S " ++ cleanExecutable
  else lit "#!/usr/bin/env " ++ cleanExecutable.

Definition addShebang (filePath executable : jsstring) : proc unit :=
  found <- existsSync filePath;;
  (if negb found
   then console_error (lit "Error: File '" ++ filePath ++ lit "' does not exist");;
        process_exit 1
   else ret tt);;
  content <- readFileSync filePath;;
  let shebang := createShebang executable ++ [LF] in
  (* Check if shebang already exists *)
  if startsWith content (lit "#!")
  then console_log (lit "File '" ++ filePath ++ lit "' already has a shebang, skipping")
  else
    let newContent := shebang ++ content in
    writeFileSync filePath newContent;;
    chmodSync filePath o755;;
    console_log (lit "Added shebang '" ++ trim shebang ++ lit "' to '" ++ filePath
                 ++ lit "' and made it executable").

Definition printUsage (print : jsstring -> proc unit) : proc unit :=
  print (lit "Usage:");;
  print (lit "  bang                          # Process all files from package.json "
         ++ [DQUOTE] ++ lit "bang" ++ [DQUOTE] ++ lit " config");;
  print (lit "  bang <filename> <executable>  # Add shebang to specific file");;
  print (lit "  bang --help, -h               # Print this usage information");;
  print (lit "  bang --version, -v            # Print the version number").

Section Main.

(** What the script takes from outside the file, as for the later
    revision: the version of its own [package.json], [JSON.parse]
    ([None] where it throws) and the entries of [packageJson.bang] ([None]
    where that field is falsy). *)
Variable pkg_version : jsstring.
Variable json : Type.
Variable JSON_parse : jsstring -> option json.
Variable bang_entries : json -> option (list (jsstring * jsstring)).

Definition printVersion : proc unit := console_log pkg_version.

Definition main (args : list jsstring) : proc unit :=
  match args with
  | [filePath; executable] =>
      (* If called with arguments: bang <file> <executable> *)
      addShebang filePath executable
  | [arg] =>
      (* If called with a single argument, check options *)
      if bool_decide (arg = lit "-h") || bool_decide (arg = lit "--help")
      then printUsage console_log;; process_exit 0
      else if bool_decide (arg = lit "-v") || bool_decide (arg = lit "--version")
      then printVersion;; process_exit 0
      else printUsage console_error;; process_exit 1
  | [] =>
      (* If called without arguments, read from package.json *)
      packageJson <- try_catch
                       (text <- readFileSync (lit "package.json");;
                        match JSON_parse text with
                        | Some v => ret v
                        | None => throw (lit "Unexpected token")
                        end)
                       (fun _ =>
                          console_error (lit "Error: Could not read package.json");;
                          process_exit 1);;
      match bang_entries packageJson with
      | None =>
          console_error (lit "Error: No " ++ [DQUOTE] ++ lit "bang" ++ [DQUOTE]
                         ++ lit " configuration found in package.json");;
          console_error (lit "Add a " ++ [DQUOTE] ++ lit "bang" ++ [DQUOTE]
                         ++ lit " field with file -> executable mappings");;
          process_exit 1
      | Some entries =>
          for_of entries (fun entry => addShebang entry.1 entry.2)
      end
  | _ => printUsage console_error;; process_exit 1
  end.

End Main.

End V1.

(** ** The later revision of the script *)

Module V2.

Record options := Options {
  help : bool;
  version : bool;
  force : bool;
  dryRun : bool
}.

Definition createShebang (executable : jsstring) : jsstring :=
  (* Remove leading -S if user already provided it *)
  let cleanExecutable := replace_dashS executable in
  (* If executable contains arguments, use env -S *)
  if includes cleanExecutable (lit " ")
  then lit "#!/usr/bin/env -S " ++ cleanExecutable
  else lit "#!/usr/bin/env " ++ cleanExecutable.

(** The statements of [addShebang] after its first [if] block; they run on
    the text that block leaves in [content]. *)
Definition addShebang_write (filePath shebang content : jsstring) (dryRun : bool)
  : proc unit :=
  if dryRun
  then console_log (lit "Would add shebang '" ++ trim shebang ++ lit "' to '"
                    ++ filePath ++ lit "'")
  else
    let newContent := shebang ++ content in
    writeFileSync filePath newContent;;
    chmodSync filePath o755;;
    console_log (lit "Added shebang '" ++ trim shebang ++ lit "' to '" ++ filePath
                 ++ lit "' and made it executable").

Definition addShebang (filePath executable : jsstring) (o : options) : proc unit :=
  found <- existsSync filePath;;
  (if negb found
   then console_error (lit "Error: File '" ++ filePath ++ lit "' does not exist");;
        process_exit 1
   else ret tt);;
  content <- readFileSync filePath;;
  let shebang := createShebang executable ++ [LF] in
  (* Check if shebang already exists *)
  if startsWith content (lit "#!")
  then
    if dryRun o
    then
      if negb (force o)
      then console_log (lit "Would skip file '" ++ filePath
                        ++ lit "'. It already has a shebang.")
      else console_log (lit "Would replace shebang in '" ++ filePath ++ lit "' with '"
                        ++ trim shebang ++ lit "'")
    else
      if negb (force o)
      then console_log (lit "File '" ++ filePath ++ lit "' already has a shebang, skipping")
      else
        let content := join [LF] (slice1 (split LF content)) in
        addShebang_write filePath shebang content (dryRun o)
  else addShebang_write filePath shebang content (dryRun o).

Definition printUsage (print : jsstring -> proc unit) : proc unit :=
  print (lit "Usage:");;
  print (lit "  [OPTIONS] bang <filename> <executable> ");;
  print (lit "                           # Add shebang to specific file");;
  print (lit "  [OPTIONS] bang           # Process all files from package.json "
         ++ [DQUOTE] ++ lit "bang" ++ [DQUOTE] ++ lit " config");;
  print (lit "Options:");;
  print (lit "  --help, -h               # Print this usage information");;
  print (lit "  --version, -v            # Print the version number");;
  print (lit "  --force, -f              # Overwrite existing shebang");;
  print (lit "  --dry-run, -n            # Preview changes without modifying files").

(** The loop of [parseArgs] over the arguments, on the two objects it
    updates. *)
Fixpoint parseArgs_loop (args : list jsstring) (o : options) (positional : list jsstring)
  : proc (options * list jsstring) :=
  match args with
  | [] => ret (o, positional)
  | arg :: args' =>
      if bool_decide (arg = lit "--help") || bool_decide (arg = lit "-h")
      then parseArgs_loop args' (Options true (version o) (force o) (dryRun o)) positional
      else if bool_decide (arg = lit "--version") || bool_decide (arg = lit "-v")
      then parseArgs_loop args' (Options (help o) true (force o) (dryRun o)) positional
      else if bool_decide (arg = lit "--force") || bool_decide (arg = lit "-f")
      then parseArgs_loop args' (Options (help o) (version o) true (dryRun o)) positional
      else if bool_decide (arg = lit "--dry-run") || bool_decide (arg = lit "-n")
      then parseArgs_loop args' (Options (help o) (version o) (force o) true) positional
      else if match_option arg
      then throw (lit "Unknown option '" ++ arg ++ lit "'")
      else parseArgs_loop args' o (positional ++ [arg])
  end.

Definition parseArgs (args : list jsstring) : proc (options * list jsstring) :=
  parsed <- parseArgs_loop args (Options false false false false) [];;
  let positional := parsed.2 in
  if negb (Nat.eqb (List.length positional) 0) && negb (Nat.eqb (List.length positional) 2)
  then throw (lit "Invalid number of arguments")
  else ret parsed.

Section Main.

(** What the script takes from outside the file: the version of its own
    [package.json], and the runtime's [JSON.parse] with the two operations
    [main] applies to the parsed descriptor.  [JSON_parse] is [None] where
    [JSON.parse] throws; [bang_entries] is [None] where [packageJson.bang]
    is falsy, and otherwise the pairs of [Object.entries(bangConfig)] in
    their order.  Descriptors that parse to [null] and entries whose value
    is no string are outside this model. *)
Variable pkg_version : jsstring.
Variable json : Type.
Variable JSON_parse : jsstring -> option json.
Variable bang_entries : json -> option (list (jsstring * jsstring)).

Definition printVersion : proc unit := console_log pkg_version.

Definition main (args : list jsstring) : proc unit :=
  parsedArgs <- try_catch (parseArgs args)
                  (fun message =>
                     console_error (lit "Error: " ++ message);;
                     printUsage console_error;;
                     process_exit 1);;
  let '(options, positional) := parsedArgs in
  if help options then printUsage console_log;; process_exit 0
  else if version options then printVersion;; process_exit 0
  else
    match positional with
    | [filePath; executable] =>
        (* If called with arguments: bang <file> <executable> *)
        addShebang filePath executable options
    | [] =>
        (* If called without arguments, read from package.json *)
        packageJson <- try_catch
                         (text <- readFileSync (lit "package.json");;
                          match JSON_parse text with
                          | Some v => ret v
                          | None => throw (lit "Unexpected token")
                          end)
                         (fun _ =>
                            console_error (lit "Error: Could not read package.json");;
                            process_exit 1);;
        match bang_entries packageJson with
        | None =>
            console_error (lit "Error: No " ++ [DQUOTE] ++ lit "bang" ++ [DQUOTE]
                           ++ lit " configuration found in package.json");;
            console_error (lit "Add a " ++ [DQUOTE] ++ lit "bang" ++ [DQUOTE]
                           ++ lit " field with file -> executable mappings");;
            process_exit 1
        | Some entries =>
            for_of entries (fun entry => addShebang entry.1 entry.2 options)
        end
    | _ => printUsage console_error;; process_exit 1
    end.

End Main.

End V2.

(** ** Vocabulary of the statements *)

(** The eight option tokens that [parseArgs] recognises. *)
Definition recognized_options : list jsstring :=
  [lit "--help"; lit "-h"; lit "--version"; lit "-v";
   lit "--force"; lit "-f"; lit "--dry-run"; lit "-n"].

(** The batch loop of [main] on the entries of the manifest. *)
Definition process_batch (targets : list (jsstring * jsstring)) (o : V2.options)
  : proc unit :=
  for_of targets (fun entry => V2.addShebang entry.1 entry.2 o).

(** The line that [addShebang] prints for a path that does not exist. *)
Definition missing_file_line (filePath : jsstring) : stream * jsstring :=
  (Stderr, lit "Error: File '" ++ filePath ++ lit "' does not exist").

(** Whether one of the two spellings of a flag is on the command line. *)
Definition flag_given (long short : jsstring) (args : list jsstring) : bool :=
  bool_decide (long ∈ args \/ short ∈ args).

(** The options that the flags of a command line stand for. *)
Definition options_of (args : list jsstring) : V2.options :=
  V2.Options (flag_given (lit "--help") (lit "-h") args)
             (flag_given (lit "--version") (lit "-v") args)
             (flag_given (lit "--force") (lit "-f") args)
             (flag_given (lit "--dry-run") (lit "-n") args).

(** The options record after the loop has seen [args], from the record [o]
    before it: a flag that is set stays set. *)
Definition merged (o : V2.options) (args : list jsstring) : V2.options :=
  V2.Options (V2.help o || flag_given (lit "--help") (lit "-h") args)
             (V2.version o || flag_given (lit "--version") (lit "-v") args)
             (V2.force o || flag_given (lit "--force") (lit "-f") args)
             (V2.dryRun o || flag_given (lit "--dry-run") (lit "-n") args).

(** The tokens of a command line that are none of the eight flags, in
    their order. *)
Definition positionals (args : list jsstring) : list jsstring :=
  filter (fun t => t ∉ recognized_options) args.

(** A token that [parseArgs] accepts: a flag, or a token that the option
    pattern does not match. *)
Definition accepted (t : jsstring) : Prop :=
  t ∈ recognized_options \/ match_option t = false.

(** The text of a file, when it exists, starts with [#!]. *)
Definition has_shebang (w : world) (path : jsstring) : Prop :=
  exists f, files w !! path = Some f /\ startsWith (content f) (lit "#!") = true.

(** The form of an option, in words: one or two hyphens, then word
    characters ([A-Za-z0-9_]) only, one at least. *)
Definition option_form (t : jsstring) : Prop :=
  exists hyphens body,
    t = hyphens ++ body
    /\ (hyphens = [HYPHEN] \/ hyphens = [HYPHEN; HYPHEN])
    /\ body <> [] /\ Forall (fun c => isWordChar c = true) body.

(** A token that is a flag or has not the form of an option. *)
Definition plain_token (t : jsstring) : Prop :=
  t ∈ recognized_options \/ ~ option_form t.

(** A Unicode scalar value: a code point that is no surrogate. *)
Definition scalar (cp : N) : Prop := cp < 0x110000 /\ ~ (0xD800 <= cp <= 0xDFFF).

(** Text without lone surrogate: the code units of scalar values. *)
Definition well_formed (s : jsstring) : Prop :=
  exists cps, Forall scalar cps /\ s = flat_map code_units cps.

(** Well-formed UTF-8: the bytes of scalar values, each in its shortest
    form. *)
Definition valid_utf8 (b : list N) : Prop :=
  exists cps, Forall scalar cps /\ b = flat_map utf8_bytes cps.

(** The states that the decoder reaches. *)
Definition reachable (st : dec_state) : Prop :=
  match st with
  | Start => True
  | Cont 0 cp r => r = Any /\ 2 <= cp <= 0x43FF /\ ~ (0x360 <= cp <= 0x37F)
  | Cont 1 cp r =>
      (cp <= 15 /\ r = if cp =? 0 then From_A0 else if cp =? 13 then To_9F else Any)
      \/ (r = Any /\ 16 <= cp <= 0x10F)
  | Cont 2 cp r =>
      cp <= 4 /\ r = if cp =? 0 then From_90 else if cp =? 4 then To_8F else Any
  | Cont _ _ _ => False
  end.

(** ** Sample inputs *)

Definition bash_script : jsstring := lit "#!/bin/bash" ++ [LF] ++ lit "echo hi".

(** A file with the given text. *)
Definition text_file (text : jsstring) (m : N) : file := File (utf8_encode text) m.

(** A path resolution for the samples: a leading [./] does not count. *)
Definition sample_resolve (path : jsstring) : jsstring :=
  if startsWith path (lit "./") then drop 2 path else path.

Definition sample_world : world :=
  World (<[lit "a.sh" := text_file bash_script 420]>
           (<[lit "b.js" := text_file (lit "console.log(1)") 384]>
              (Store ∅ sample_resolve))) [].



Definition no_options : V2.options := V2.Options false false false false.
Definition force_only : V2.options := V2.Options false false true false.


(** A descriptor reader for the samples: every text parses, to the list
    of targets itself. *)
Definition sample_parse (targets : list (jsstring * jsstring)) (text : jsstring)
  : option (list (jsstring * jsstring)) := Some targets.

Definition sample_manifest_world : world :=
  World (<[lit "package.json" := text_file (lit "{}") 420]>
           (<[lit "a.sh" := text_file bash_script 420]>
              (<[lit "b.js" := text_file (lit "console.log(1)") 384]>
                 (Store ∅ sample_resolve)))) [].

Definition sample_targets : list (jsstring * jsstring) :=
  [(lit "b.js", lit "node"); (lit "gone.js", lit "node"); (lit "a.sh", lit "node")].

(** ** Proof steps *)

(** Case analysis on the test of the conditional that runs on world [w]. *)
Ltac case_head_test w E :=
  match goal with
  | |- context [(if ?b then _ else _) w] => destruct b eqn:E; cbv iota
  end.

(** That a concrete code unit or string is not in a concrete list, by
    evaluation. *)
Ltac decide_not_in :=
  let H := fresh "H" in
  intros H; apply list_elem_of_In in H; vm_compute in H;
  repeat (destruct H as [H|H]; [discriminate H|]); exact H.

(** Case analysis on every comparison of numbers in the goal. *)
Ltac decide_tests :=
  repeat match goal with
  | |- context [?a <=? ?b] => destruct (N.leb_spec a b); try lia
  | |- context [?a <? ?b] => destruct (N.ltb_spec a b); try lia
  | |- context [?a =? ?b] => destruct (N.eqb_spec a b); try lia
  end.

(** Name the quotient and the remainder of a division with what is known
    of them. *)
Ltac name_div_mod a d :=
  let q := fresh "q" in
  let r := fresh "r" in
  pose proof (N.div_mod' a d);
  assert (a mod d < d) by (apply N.mod_lt; discriminate);
  set (q := a / d) in *; set (r := a mod d) in *; clearbody q r.

(** Forget what a quotient or a remainder is: it is some number. *)
Ltac forget_div_mod :=
  repeat match goal with
  | |- context [?a mod ?d] => let r := fresh "r" in set (r := a mod d) in *; clearbody r
  | H : context [?a mod ?d] |- _ => let r := fresh "r" in set (r := a mod d) in *; clearbody r
  | |- context [?a / ?d] => let q := fresh "q" in set (q := a / d) in *; clearbody q
  | H : context [?a / ?d] |- _ => let q := fresh "q" in set (q := a / d) in *; clearbody q
  end.

(** Two literals of the source differ, by evaluation. *)
Ltac literals_differ :=
  let H := fresh "H" in intros H; vm_compute in H; discriminate H.

(** Every token of a concrete command line is accepted, by evaluation. *)
Ltac accepted_tokens :=
  repeat apply Forall_cons_2; try apply Forall_nil_2;
  first [ right; reflexivity | left; apply list_elem_of_In; vm_compute; tauto ].

(** * Properties *)

(** ** UTF-8 *)

Lemma decode_points_cons st b bs :
  decode_points st (b :: bs) = (dec_step st b).1 ++ decode_points (dec_step st b).2 bs.
Proof. cbn [decode_points]. by destruct (dec_step st b). Qed.

Lemma dec_start_ascii b : b <= 0x7F -> dec_start b = ([b], Start).
Proof. intros. unfold dec_start. by decide_tests. Qed.

Lemma dec_start_two b : 0xC2 <= b <= 0xDF -> dec_start b = ([], Cont 0 (b - 0xC0) Any).
Proof. intros. unfold dec_start. by decide_tests. Qed.

Lemma dec_start_three b :
  0xE0 <= b <= 0xEF ->
  dec_start b = ([], Cont 1 (b - 0xE0)
                       (if b =? 0xE0 then From_A0 else if b =? 0xED then To_9F else Any)).
Proof.
  intros. unfold dec_start.
  destruct (N.leb_spec b 0x7F); [lia|].
  destruct (N.leb_spec 0xC2 b), (N.leb_spec b 0xDF); try lia; cbn [andb];
  destruct (N.leb_spec 0xE0 b), (N.leb_spec b 0xEF); try lia; done.
Qed.

Lemma dec_start_four b :
  0xF0 <= b <= 0xF4 ->
  dec_start b = ([], Cont 2 (b - 0xF0)
                       (if b =? 0xF0 then From_90 else if b =? 0xF4 then To_8F else Any)).
Proof.
  intros. unfold dec_start.
  destruct (N.leb_spec b 0x7F); [lia|].
  destruct (N.leb_spec 0xC2 b), (N.leb_spec b 0xDF); try lia; cbn [andb];
  destruct (N.leb_spec 0xE0 b), (N.leb_spec b 0xEF); try lia; cbn [andb];
  destruct (N.leb_spec 0xF0 b), (N.leb_spec b 0xF4); try lia; done.
Qed.

Lemma dec_step_cont more cp r b :
  in_range r b = true ->
  dec_step (Cont more cp r) b
  = match more with
    | O => ([cp * 64 + (b - 0x80)], Start)
    | S more' => ([], Cont more' (cp * 64 + (b - 0x80)) Any)
    end.
Proof. intros H. unfold dec_step. by rewrite H. Qed.

Lemma in_range_any b : 0x80 <= b <= 0xBF -> in_range Any b = true.
Proof. intros. unfold in_range. by decide_tests. Qed.

(** Decoding the bytes of a scalar value gives it back. *)
Lemma decode_points_bytes (cp : N) (bs : list N) :
  scalar cp ->
  decode_points Start (utf8_bytes cp ++ bs) = cp :: decode_points Start bs.
Proof.
  intros [Hlt Hns]. unfold utf8_bytes.
  destruct (N.ltb_spec cp 0x80);
    [|destruct (N.ltb_spec cp 0x800); [|destruct (N.ltb_spec cp 0x10000)]];
    cbn [app]; rewrite !decode_points_cons; cbn [dec_step].
  - by rewrite dec_start_ascii by lia.
  - name_div_mod cp 64.
    rewrite dec_start_two by lia. cbn [fst snd app].
    rewrite dec_step_cont by (apply in_range_any; lia). cbn [fst snd app].
    f_equal. lia.
  - name_div_mod (cp / 64) 64. name_div_mod cp 4096. name_div_mod cp 64.
    rewrite dec_start_three by lia. cbn [fst snd app].
    rewrite dec_step_cont.
    2:{ destruct (N.eqb_spec (0xE0 + q0) 0xE0); [|destruct (N.eqb_spec (0xE0 + q0) 0xED)];
        unfold in_range; decide_tests; done. }
    cbn [fst snd app].
    rewrite dec_step_cont by (apply in_range_any; lia). cbn [fst snd app].
    f_equal. lia.
  - name_div_mod (cp / 4096) 64. name_div_mod (cp / 64) 64.
    name_div_mod cp 262144. name_div_mod cp 4096. name_div_mod cp 64.
    rewrite dec_start_four by lia. cbn [fst snd app].
    rewrite dec_step_cont.
    2:{ destruct (N.eqb_spec (0xF0 + q1) 0xF0); [|destruct (N.eqb_spec (0xF0 + q1) 0xF4)];
        unfold in_range; decide_tests; done. }
    cbn [fst snd app].
    rewrite dec_step_cont by (apply in_range_any; lia). cbn [fst snd app].
    rewrite dec_step_cont by (apply in_range_any; lia). cbn [fst snd app].
    f_equal. lia.
Qed.

Lemma utf8_encode_from_cons p c s :
  utf8_encode_from p (c :: s) = (enc_step p c).1 ++ utf8_encode_from (enc_step p c).2 s.
Proof. cbn [utf8_encode_from]. by destruct (enc_step p c). Qed.

Lemma is_high_surrogate_spec c : is_high_surrogate c = true <-> 0xD800 <= c <= 0xDBFF.
Proof. unfold is_high_surrogate. rewrite andb_true_iff, !N.leb_le. done. Qed.

Lemma is_low_surrogate_spec c : is_low_surrogate c = true <-> 0xDC00 <= c <= 0xDFFF.
Proof. unfold is_low_surrogate. rewrite andb_true_iff, !N.leb_le. done. Qed.

Lemma enc_start_high c : 0xD800 <= c <= 0xDBFF -> enc_start c = ([], Some c).
Proof. intros H%is_high_surrogate_spec. unfold enc_start. by rewrite H. Qed.

Lemma enc_start_plain c :
  ~ (0xD800 <= c <= 0xDFFF) -> enc_start c = (utf8_bytes c, None).
Proof.
  intros H. unfold enc_start.
  destruct (is_high_surrogate c) eqn:E1; [apply is_high_surrogate_spec in E1; lia|].
  destruct (is_low_surrogate c) eqn:E2; [apply is_low_surrogate_spec in E2; lia|].
  done.
Qed.

Lemma enc_step_pair h c :
  0xDC00 <= c <= 0xDFFF ->
  enc_step (Some h) c = (utf8_bytes (0x10000 + (h - 0xD800) * 1024 + (c - 0xDC00)), None).
Proof. intros H%is_low_surrogate_spec. unfold enc_step. by rewrite H. Qed.

(** Encoding the code units of a scalar value gives its bytes. *)
Lemma utf8_encode_units (cp : N) (s : jsstring) :
  scalar cp ->
  utf8_encode_from None (code_units cp ++ s) = utf8_bytes cp ++ utf8_encode_from None s.
Proof.
  intros [Hlt Hns]. unfold code_units.
  destruct (N.ltb_spec cp 0x10000); cbn [app]; rewrite utf8_encode_from_cons; cbn [enc_step].
  - by rewrite enc_start_plain.
  - name_div_mod (cp - 0x10000) 1024.
    rewrite enc_start_high by lia. cbn [fst snd app].
    rewrite utf8_encode_from_cons, enc_step_pair by lia. cbn [fst snd].
    do 2 f_equal. lia.
Qed.

Lemma utf8_encode_points (cps : list N) :
  Forall scalar cps ->
  utf8_encode (flat_map code_units cps) = flat_map utf8_bytes cps.
Proof.
  unfold utf8_encode. induction 1 as [|cp cps Hcp _ IH]; [done|].
  cbn [flat_map]. by rewrite utf8_encode_units, IH.
Qed.

Lemma decode_points_encoded (cps : list N) :
  Forall scalar cps ->
  decode_points Start (flat_map utf8_bytes cps) = cps.
Proof.
  induction 1 as [|cp cps Hcp _ IH]; [done|].
  cbn [flat_map]. by rewrite decode_points_bytes, IH.
Qed.

(** Well-formed text survives encoding and decoding. *)
Lemma utf8_round_trip (s : jsstring) :
  well_formed s -> utf8_decode (utf8_encode s) = s.
Proof.
  intros (cps & Hcps & ->). unfold utf8_decode.
  by rewrite utf8_encode_points, decode_points_encoded.
Qed.

Lemma scalar_replacement : scalar REPLACEMENT.
Proof. unfold scalar, REPLACEMENT. lia. Qed.

Lemma dec_start_spec (b : N) :
  reachable (dec_start b).2
  /\ Forall (fun cp => scalar cp /\ (cp < 0x80 -> cp = b)) (dec_start b).1.
Proof.
  unfold dec_start.
  destruct (N.leb_spec b 0x7F).
  { cbn. split; [done|]. repeat constructor; unfold scalar; lia. }
  destruct (N.leb_spec 0xC2 b), (N.leb_spec b 0xDF); cbn [andb].
  1:{ cbn. split; [|constructor]. repeat split; lia. }
  all: destruct (N.leb_spec 0xE0 b), (N.leb_spec b 0xEF); cbn [andb];
    try (cbn [fst snd reachable]; split; [|constructor]; left; split; [lia|];
         destruct (N.eqb_spec b 0xE0); [subst; reflexivity|];
         destruct (N.eqb_spec b 0xED); [subst; reflexivity|];
         destruct (N.eqb_spec (b - 0xE0) 0); [lia|];
         destruct (N.eqb_spec (b - 0xE0) 13); [lia|]; reflexivity).
  all: destruct (N.leb_spec 0xF0 b), (N.leb_spec b 0xF4); cbn [andb];
    try (cbn [fst snd reachable]; split; [|constructor]; split; [lia|];
         destruct (N.eqb_spec b 0xF0); [subst; reflexivity|];
         destruct (N.eqb_spec b 0xF4); [subst; reflexivity|];
         destruct (N.eqb_spec (b - 0xF0) 0); [lia|];
         destruct (N.eqb_spec (b - 0xF0) 4); [lia|]; reflexivity).
  all: cbn; split; [done|]; repeat constructor; try apply scalar_replacement;
    unfold REPLACEMENT; lia.
Qed.

Lemma dec_step_spec (st : dec_state) (b : N) :
  reachable st ->
  reachable (dec_step st b).2
  /\ Forall (fun cp => scalar cp /\ (cp < 0x80 -> cp = b)) (dec_step st b).1.
Proof.
  intros Hst. destruct st as [|more cp r]; [apply dec_start_spec|].
  unfold dec_step. destruct (in_range r b) eqn:Hin.
  - destruct more as [|[|[|more]]]; cbn [reachable] in Hst; [| | |done].
    + destruct Hst as (-> & Hcp & Hns). cbn [fst snd]. split; [done|].
      unfold in_range in Hin. apply andb_true_iff in Hin as [?%N.leb_le ?%N.leb_le].
      repeat constructor; unfold scalar; lia.
    + cbn [fst snd reachable]. split; [|constructor].
      destruct Hst as [[Hcp ->]|[-> Hcp]].
      * destruct (N.eqb_spec cp 0); [|destruct (N.eqb_spec cp 13)];
          unfold in_range in Hin; apply andb_true_iff in Hin as [?%N.leb_le ?%N.leb_le];
          repeat split; lia.
      * unfold in_range in Hin. apply andb_true_iff in Hin as [?%N.leb_le ?%N.leb_le].
        repeat split; lia.
    + cbn [fst snd reachable]. split; [|constructor].
      destruct Hst as [Hcp ->]. right. split; [done|].
      destruct (N.eqb_spec cp 0); [|destruct (N.eqb_spec cp 4)];
        unfold in_range in Hin; apply andb_true_iff in Hin as [?%N.leb_le ?%N.leb_le];
        lia.
  - destruct (dec_start_spec b) as [Hr Hout].
    destruct (dec_start b) as [out st']. cbn [fst snd] in *. split; [done|].
    constructor; [|done]. split; [apply scalar_replacement | unfold REPLACEMENT; lia].
Qed.

(** What the decoder puts out: scalar values only, and below [0x80] only
    bytes of its input. *)
Lemma decode_points_spec (bytes : list N) :
  forall st, reachable st ->
    Forall (fun cp => scalar cp /\ (cp < 0x80 -> cp ∈ bytes)) (decode_points st bytes).
Proof.
  induction bytes as [|b bytes IH]; intros st Hst.
  - destruct st; cbn; repeat constructor; try apply scalar_replacement.
    unfold REPLACEMENT. lia.
  - rewrite decode_points_cons. destruct (dec_step_spec st b Hst) as [Hr Hout].
    apply Forall_app. split.
    + eapply Forall_impl; [exact Hout|]. intros cp [? Hb]. split; [done|].
      intros Hlt. rewrite (Hb Hlt). apply elem_of_cons. by left.
    + eapply Forall_impl; [exact (IH _ Hr)|]. intros cp [? Hb]. split; [done|].
      intros Hlt. apply elem_of_cons. right. by apply Hb.
Qed.

(** Decoded text is well formed. *)
Lemma utf8_decode_well_formed (bytes : list N) : well_formed (utf8_decode bytes).
Proof.
  exists (decode_points Start bytes). split; [|done].
  eapply Forall_impl; [exact (decode_points_spec bytes Start I)|]. by intros cp [? _].
Qed.

(** Decoding, encoding and decoding again is decoding. *)
Lemma utf8_decode_stable (bytes : list N) :
  utf8_decode (utf8_encode (utf8_decode bytes)) = utf8_decode bytes.
Proof. apply utf8_round_trip, utf8_decode_well_formed. Qed.

(** ** Line feeds *)

Lemma decode_points_line_feed (a b : list N) :
  forall st,
    decode_points st (a ++ 10 :: b) = decode_points st a ++ 10 :: decode_points Start b.
Proof.
  induction a as [|x a IH]; intros st.
  - cbn [app]. rewrite decode_points_cons.
    destruct st as [|more cp r]; [done|]. by destruct r.
  - cbn [app]. by rewrite !decode_points_cons, IH, app_assoc.
Qed.

Lemma utf8_decode_line_feed (a b : list N) :
  utf8_decode (a ++ 10 :: b) = utf8_decode a ++ LF :: utf8_decode b.
Proof.
  unfold utf8_decode. by rewrite decode_points_line_feed, flat_map_app.
Qed.

Lemma utf8_encode_from_line_feed (a b : jsstring) :
  forall p,
    utf8_encode_from p (a ++ LF :: b) = utf8_encode_from p a ++ 10 :: utf8_encode b.
Proof.
  induction a as [|c a IH]; intros p.
  - cbn [app]. rewrite utf8_encode_from_cons. by destruct p.
  - cbn [app]. by rewrite !utf8_encode_from_cons, IH, app_assoc.
Qed.

Lemma utf8_encode_line_feed (a b : jsstring) :
  utf8_encode (a ++ LF :: b) = utf8_encode a ++ 10 :: utf8_encode b.
Proof. apply utf8_encode_from_line_feed. Qed.

Lemma utf8_bytes_ascii (cp b : N) : b ∈ utf8_bytes cp -> b < 0x80 -> b = cp.
Proof.
  unfold utf8_bytes.
  destruct (N.ltb_spec cp 0x80); [|destruct (N.ltb_spec cp 0x800);
                                    [|destruct (N.ltb_spec cp 0x10000)]];
    rewrite ?elem_of_cons, elem_of_nil; intros Hin Hlt; forget_div_mod;
    repeat (destruct Hin as [->|Hin]; [lia|]); done.
Qed.

Lemma replacement_not_ascii (b : N) : b ∈ utf8_bytes REPLACEMENT -> b < 0x80 -> False.
Proof.
  intros Hin Hlt. apply utf8_bytes_ascii in Hin; [|done]. subst. unfold REPLACEMENT in Hlt. lia.
Qed.

Lemma enc_start_ascii (c b : N) : b ∈ (enc_start c).1 -> b < 0x80 -> b = c.
Proof.
  unfold enc_start. destruct (is_high_surrogate c); [by intros ?%elem_of_nil|].
  destruct (is_low_surrogate c); cbn [fst]; [|apply utf8_bytes_ascii].
  intros Hin Hlt. by apply replacement_not_ascii in Hin.
Qed.

(** The encoder puts out a byte below [0x80] only for that code unit. *)
Lemma utf8_encode_from_ascii (s : jsstring) (b : N) :
  forall p, b ∈ utf8_encode_from p s -> b < 0x80 -> b ∈ s.
Proof.
  induction s as [|c s IH]; intros p Hin Hlt.
  - destruct p; cbn [utf8_encode_from enc_finish] in Hin; [|by apply elem_of_nil in Hin].
    by apply replacement_not_ascii in Hin.
  - rewrite utf8_encode_from_cons in Hin. apply elem_of_app in Hin as [Hin|Hin].
    + apply elem_of_cons. left.
      destruct p as [h|]; cbn [enc_step] in Hin; [|by apply enc_start_ascii].
      destruct (is_low_surrogate c) eqn:E; cbn [fst] in Hin.
      * apply utf8_bytes_ascii in Hin; [|done]. apply is_low_surrogate_spec in E. lia.
      * destruct (enc_start c) as [out p'] eqn:Es. cbn [fst] in Hin.
        apply elem_of_app in Hin as [Hin|Hin].
        -- by apply replacement_not_ascii in Hin.
        -- apply (enc_start_ascii c b); [by rewrite Es | done].
    + apply elem_of_cons. right. by apply (IH _ Hin).
Qed.

Lemma utf8_encode_no_line_feed (s : jsstring) : LF ∉ s -> 10 ∉ utf8_encode s.
Proof. intros Hnot Hin. apply Hnot. by apply (utf8_encode_from_ascii s 10 None). Qed.

Lemma code_units_ascii (cp u : N) : u ∈ code_units cp -> u < 0x80 -> u = cp.
Proof.
  unfold code_units. destruct (N.ltb_spec cp 0x10000);
    rewrite ?elem_of_cons, elem_of_nil; intros Hin Hlt; forget_div_mod;
    repeat (destruct Hin as [->|Hin]; [lia|]); done.
Qed.

(** The decoder puts out a code unit below [0x80] only for that byte. *)
Lemma utf8_decode_ascii (bytes : list N) (u : N) :
  u ∈ utf8_decode bytes -> u < 0x80 -> u ∈ bytes.
Proof.
  unfold utf8_decode. intros Hin Hlt.
  apply list_elem_of_In, in_flat_map in Hin as (cp & Hcp & Hu).
  apply list_elem_of_In in Hcp, Hu.
  apply code_units_ascii in Hu; [|done]. subst u.
  pose proof (decode_points_spec bytes Start I) as Hspec.
  rewrite Forall_forall in Hspec. by apply (Hspec cp Hcp).
Qed.

Lemma utf8_decode_no_line_feed (bytes : list N) : 10 ∉ bytes -> LF ∉ utf8_decode bytes.
Proof. intros Hnot Hin. apply Hnot. by apply utf8_decode_ascii. Qed.

(** ** Strings *)

Lemma startsWith_app (s p : jsstring) : startsWith (p ++ s) p = true.
Proof.
  induction p as [|c p IH]; simpl; [done|].
  by rewrite N.eqb_refl, IH.
Qed.



Lemma trimStart_strip (ws rest : jsstring) :
  Forall (fun c => isWhiteSpace c = true) ws ->
  trimStart (ws ++ rest) = trimStart rest.
Proof.
  induction 1 as [|c ws Hc _ IH]; simpl; [done|]. by rewrite Hc.
Qed.

Lemma trimStart_head (s : jsstring) :
  match s with c :: _ => isWhiteSpace c = false | [] => True end ->
  trimStart s = s.
Proof. destruct s as [|c s]; simpl; [done|]. by intros ->. Qed.

Lemma trimStart_suffix (s : jsstring) : exists ws, s = ws ++ trimStart s.
Proof.
  induction s as [|c s [ws IH]]; simpl.
  - by exists [].
  - destruct (isWhiteSpace c).
    + exists (c :: ws). simpl. by rewrite <- IH.
    + by exists [].
Qed.

(** What [replace(/^-S\s+/, '')] removes: [-S] and the run of white space
    after it, when that run is not empty. *)
Lemma replace_dashS_strip (ws rest : jsstring) :
  ws <> [] ->
  Forall (fun c => isWhiteSpace c = true) ws ->
  match rest with c :: _ => isWhiteSpace c = false | [] => True end ->
  replace_dashS (lit "-S" ++ ws ++ rest) = rest.
Proof.
  intros Hne Hws Hrest. destruct ws as [|c ws]; [done|].
  inversion Hws as [|? ? Hc Hws']; subst. simpl. rewrite Hc.
  by rewrite trimStart_strip, trimStart_head.
Qed.

(** Everything else is left as it is. *)
Lemma replace_dashS_keep (executable : jsstring) :
  (forall c rest, executable = lit "-S" ++ c :: rest -> isWhiteSpace c = false) ->
  replace_dashS executable = executable.
Proof.
  intros H. unfold replace_dashS.
  destruct executable as [|c1 [|c2 [|c rest]]]; try done.
  destruct (c1 =? HYPHEN) eqn:E1; [|done].
  destruct (c2 =? LETTER_S) eqn:E2; [|done].
  apply N.eqb_eq in E1, E2. subst. by rewrite (H c rest eq_refl).
Qed.

(** The stripped command is a suffix of the command. *)
Lemma replace_dashS_suffix (executable : jsstring) :
  exists removed, executable = removed ++ replace_dashS executable.
Proof.
  unfold replace_dashS.
  destruct executable as [|c1 [|c2 [|c rest]]]; try by exists [].
  destruct ((c1 =? HYPHEN) && (c2 =? LETTER_S) && isWhiteSpace c); [|by exists []].
  destruct (trimStart_suffix rest) as [ws Hws].
  exists (c1 :: c2 :: c :: ws). simpl. by rewrite <- Hws.
Qed.

(** ** [split] and [join] *)

Lemma split_nonempty (sep : N) (s : jsstring) : split sep s <> [].
Proof.
  destruct s as [|c s]; simpl; [done|].
  destruct (c =? sep); [done|]. by destruct (split sep s).
Qed.

(** A segment without the separator, then the separator: the first segment
    of the split, and the split of the rest after it. *)
Lemma split_first_line (sep : N) (first rest : jsstring) :
  sep ∉ first ->
  split sep (first ++ sep :: rest) = first :: split sep rest.
Proof.
  induction first as [|c first IH]; intros Hnot; simpl.
  - by rewrite N.eqb_refl.
  - apply not_elem_of_cons in Hnot as [Hc Hfirst].
    destruct (c =? sep) eqn:E; [apply N.eqb_eq in E; congruence|].
    by rewrite IH.
Qed.

(** No separator: one segment. *)
Lemma split_one_line (sep : N) (s : jsstring) :
  sep ∉ s -> split sep s = [s].
Proof.
  induction s as [|c s IH]; intros Hnot; simpl; [done|].
  apply not_elem_of_cons in Hnot as [Hc Hs].
  destruct (c =? sep) eqn:E; [apply N.eqb_eq in E; congruence|].
  by rewrite IH.
Qed.

(** Joining what was split gives the string back. *)
Lemma join_split (sep : N) (s : jsstring) : join [sep] (split sep s) = s.
Proof.
  induction s as [|c s IH]; simpl; [done|].
  destruct (c =? sep) eqn:E.
  - apply N.eqb_eq in E. subst c.
    pose proof (split_nonempty sep s) as Hne.
    destruct (split sep s) as [|seg segs]; [done|].
    simpl in *. by rewrite IH.
  - pose proof (split_nonempty sep s) as Hne.
    destruct (split sep s) as [|seg segs]; [done|].
    destruct segs as [|seg' segs]; simpl in *; by rewrite <- IH.
Qed.

(** [content.split(/\n/g).slice(1).join('\n')] drops the first line with
    its line feed. *)
Lemma drop_first_line (first rest : jsstring) :
  LF ∉ first ->
  join [LF] (slice1 (split LF (first ++ LF :: rest))) = rest.
Proof.
  intros Hnot. rewrite split_first_line by done.
  unfold slice1. simpl. rewrite drop_0. apply join_split.
Qed.

(** When the text has one line only, nothing is left. *)
Lemma drop_only_line (s : jsstring) :
  LF ∉ s -> join [LF] (slice1 (split LF s)) = [].
Proof. intros Hnot. by rewrite split_one_line. Qed.

(** ** Shebang synthesis *)

Lemma createShebang_prefix (executable : jsstring) :
  startsWith (V2.createShebang executable) (lit "#!") = true.
Proof. unfold V2.createShebang. by destruct (includes _ _). Qed.







(** Well-formed UTF-8 is what survives decoding and encoding. *)
Lemma valid_utf8_stable (b : list N) :
  valid_utf8 b -> utf8_encode (utf8_decode b) = b.
Proof.
  intros (cps & Hcps & ->). unfold utf8_decode.
  by rewrite decode_points_encoded, utf8_encode_points.
Qed.




(** ** The file store *)

Lemma store_lookup_insert_eq (s : store) (path : jsstring) (f : file) :
  <[path := f]> s !! path = Some f.
Proof. unfold lookup, insert, store_lookup, store_insert. cbn. apply lookup_insert_eq. Qed.

Lemma store_lookup_insert_ne (s : store) (path path' : jsstring) (f : file) :
  resolve s path <> resolve s path' ->
  <[path := f]> s !! path' = s !! path'.
Proof.
  intros Hne. unfold lookup, insert, store_lookup, store_insert. cbn.
  by apply lookup_insert_ne.
Qed.

Lemma store_lookup_insert_alias (s : store) (path path' : jsstring) (f : file) :
  resolve s path = resolve s path' ->
  <[path := f]> s !! path' = Some f.
Proof.
  intros Heq. unfold lookup, insert, store_lookup, store_insert. cbn.
  rewrite Heq. apply lookup_insert_eq.
Qed.

Lemma store_lookup_alias (s : store) (path path' : jsstring) :
  resolve s path = resolve s path' -> s !! path = s !! path'.
Proof. intros Heq. unfold lookup, store_lookup. by rewrite Heq. Qed.

Lemma store_insert_insert_eq (s : store) (path : jsstring) (f g : file) :
  <[path := f]> (<[path := g]> s) = <[path := f]> s.
Proof.
  unfold insert, store_insert. cbn. by rewrite insert_insert_eq.
Qed.

(** Two texts that start with the same two ASCII characters: encoded and
    decoded, the text still starts with them. *)
Lemma written_shebang (executable text : jsstring) :
  startsWith (utf8_decode (utf8_encode ((V2.createShebang executable ++ [LF]) ++ text)))
    (lit "#!") = true.
Proof. unfold V2.createShebang. by destruct (includes _ _). Qed.

(** ** The applier, case by case *)

Section Applier.

Variables (filePath executable : jsstring) (o : V2.options) (w : world).

Let shebang : jsstring := V2.createShebang executable ++ [LF].

(** A path that does not exist: one line on the error stream, exit code 1,
    nothing else. *)
Lemma addShebang_missing :
  files w !! filePath = None ->
  V2.addShebang filePath executable o w
  = (Exit 1, World (files w) (console w ++ [missing_file_line filePath])).
Proof.
  intros Hnone. unfold V2.addShebang, bind, existsSync. rewrite Hnone.
  rewrite bool_decide_eq_false_2 by (by intros [? ?]). done.
Qed.

(** A path that exists: the statements after the existence check run on
    the text of the file. *)
Lemma addShebang_found (f : file) :
  files w !! filePath = Some f ->
  V2.addShebang filePath executable o w
  = (if startsWith (content f) (lit "#!")
     then
       if V2.dryRun o
       then
         if negb (V2.force o)
         then console_log (lit "Would skip file '" ++ filePath
                           ++ lit "'. It already has a shebang.")
         else console_log (lit "Would replace shebang in '" ++ filePath
                           ++ lit "' with '" ++ trim shebang ++ lit "'")
       else
         if negb (V2.force o)
         then console_log (lit "File '" ++ filePath
                           ++ lit "' already has a shebang, skipping")
         else V2.addShebang_write filePath shebang
                (join [LF] (slice1 (split LF (content f)))) (V2.dryRun o)
     else V2.addShebang_write filePath shebang (content f) (V2.dryRun o)) w.
Proof.
  intros Hsome. unfold V2.addShebang, bind, existsSync.
  rewrite Hsome, bool_decide_eq_true_2 by eauto.
  cbn [negb ret]. unfold readFileSync. by rewrite Hsome.
Qed.

(** The write: the bytes of the new text under the path, with mode
    [0o755]. *)
Lemma addShebang_write_run (f : file) (sh text : jsstring) :
  files w !! filePath = Some f ->
  V2.addShebang_write filePath sh text false w
  = (Normal tt,
     World (<[filePath := File (utf8_encode (sh ++ text)) o755]> (files w))
           (console w ++ [(Stdout, lit "Added shebang '" ++ trim sh ++ lit "' to '"
                                   ++ filePath ++ lit "' and made it executable")])).
Proof.
  intros Hsome.
  unfold V2.addShebang_write, bind, writeFileSync, chmodSync, console_log, print.
  cbn [files console]. rewrite store_lookup_insert_eq. cbn [files console bytes].
  by rewrite store_insert_insert_eq.
Qed.

(** The dry run of the write: a line on the console. *)
Lemma addShebang_write_dry (sh text : jsstring) :
  files (V2.addShebang_write filePath sh text true w).2 = files w.
Proof. reflexivity. Qed.

(** Printing leaves the files alone. *)
Lemma print_files (to : stream) (line : jsstring) :
  files (print to line w).2 = files w.
Proof. reflexivity. Qed.

(** The applier never ends by an exception. *)
Lemma addShebang_completion :
  (V2.addShebang filePath executable o w).1
  = if bool_decide (is_Some (files w !! filePath)) then Normal tt else Exit 1.
Proof.
  destruct (files w !! filePath) as [f|] eqn:Hf.
  - rewrite bool_decide_eq_true_2 by eauto.
    rewrite (addShebang_found f Hf).
    destruct (startsWith _ _), (V2.dryRun o), (V2.force o);
      cbn [negb]; try reflexivity; by rewrite (addShebang_write_run f _ _ Hf).
  - rewrite bool_decide_eq_false_2 by (by intros [? ?]).
    by rewrite addShebang_missing.
Qed.

(** The applier neither creates nor removes a file. *)
Lemma addShebang_exists (path : jsstring) :
  is_Some (files (V2.addShebang filePath executable o w).2 !! path)
  <-> is_Some (files w !! path).
Proof.
  destruct (files w !! filePath) as [f|] eqn:Hf.
  - rewrite (addShebang_found f Hf).
    destruct (startsWith _ _), (V2.dryRun o), (V2.force o);
      cbn [negb]; try reflexivity;
      rewrite (addShebang_write_run f _ _ Hf); cbn [snd files];
      (destruct (decide (resolve (files w) filePath = resolve (files w) path)) as [Heq|Hne];
       [rewrite (store_lookup_insert_alias _ _ _ _ Heq),
          <- (store_lookup_alias _ _ _ Heq), Hf; split; eauto
       |by rewrite store_lookup_insert_ne]).
  - by rewrite addShebang_missing.
Qed.

End Applier.

(** ** The applier: claims *)




(** C4: without force, a file whose text starts with [#!] is left as it is,
    with or without dry run: the applier returns and no file has changed,
    in text or in mode. *)
Theorem no_force_keeps_shebang (w : world) (filePath executable : jsstring)
    (f : file) (o : V2.options) :
  files w !! filePath = Some f ->
  startsWith (content f) (lit "#!") = true ->
  V2.force o = false ->
  (V2.addShebang filePath executable o w).1 = Normal tt
  /\ files (V2.addShebang filePath executable o w).2 = files w.
Proof.
  intros Hf Hstart Hforce.
  rewrite (addShebang_found _ _ _ _ f Hf), Hstart, Hforce.
  by destruct (V2.dryRun o).
Qed.

Lemma no_force_keeps_shebang_witness :
  (V2.addShebang (lit "a.sh") (lit "node") no_options sample_world).1 = Normal tt
  /\ files (V2.addShebang (lit "a.sh") (lit "node") no_options sample_world).2
     = files sample_world.
Proof.
  apply (no_force_keeps_shebang sample_world (lit "a.sh") (lit "node")
           (text_file bash_script 420) no_options).
  - vm_compute; reflexivity.
  - vm_compute; reflexivity.
  - reflexivity.
Defined.

(** C5: a dry run changes no file, in text or in mode, whatever the path,
    the command and the other options are. *)
Theorem dry_run_keeps_files (w : world) (filePath executable : jsstring)
    (help version force : bool) :
  files (V2.addShebang filePath executable (V2.Options help version force true) w).2
  = files w.
Proof.
  destruct (files w !! filePath) as [f|] eqn:Hf.
  - rewrite (addShebang_found _ _ _ _ f Hf). cbn [V2.dryRun V2.force].
    by destruct (startsWith _ _), force.
  - by rewrite addShebang_missing.
Qed.

(** C7: whenever the applier writes (no dry run, and the text does not
    start with [#!] or force is set), the mode of the file afterwards is
    [0o755], that is [rwxr-xr-x], whatever it was before. *)
Theorem write_sets_mode (w : world) (filePath executable : jsstring)
    (f : file) (o : V2.options) :
  files w !! filePath = Some f ->
  V2.dryRun o = false ->
  startsWith (content f) (lit "#!") = false \/ V2.force o = true ->
  mode <$> files (V2.addShebang filePath executable o w).2 !! filePath = Some o755
  /\ permission_bits o755 = [true; true; true; true; false; true; true; false; true].
Proof.
  intros Hf Hdry Hwrite. split; [|reflexivity].
  rewrite (addShebang_found _ _ _ _ f Hf), Hdry.
  destruct (startsWith _ _).
  - destruct Hwrite as [Hno|Hforce]; [done|]. rewrite Hforce. cbn [negb].
    rewrite (addShebang_write_run _ _ f _ _ Hf). cbn [snd files].
    by rewrite store_lookup_insert_eq.
  - rewrite (addShebang_write_run _ _ f _ _ Hf). cbn [snd files].
    by rewrite store_lookup_insert_eq.
Qed.

Lemma write_sets_mode_witness :
  mode <$> files (V2.addShebang (lit "b.js") (lit "node") no_options sample_world).2
           !! lit "b.js" = Some o755
  /\ permission_bits o755 = [true; true; true; true; false; true; true; false; true].
Proof.
  apply (write_sets_mode sample_world (lit "b.js") (lit "node")
           (text_file (lit "console.log(1)") 384) no_options).
  - vm_compute; reflexivity.
  - reflexivity.
  - left. vm_compute; reflexivity.
Defined.

(** C9: the two revisions agree.  [createShebang] is the same function in
    both, and the earlier [addShebang] is the later one without force and
    without dry run: same completion, same files, same console. *)
Theorem later_revision_refines :
  (forall executable, V1.createShebang executable = V2.createShebang executable)
  /\ (forall filePath executable help version w,
        V1.addShebang filePath executable w
        = V2.addShebang filePath executable (V2.Options help version false false) w).
Proof.
  split; [reflexivity|].
  intros filePath executable help version w.
  destruct (files w !! filePath) as [f|] eqn:Hf.
  - rewrite (addShebang_found _ _ _ _ f Hf). cbn [V2.dryRun V2.force negb].
    unfold V1.addShebang, bind, existsSync.
    rewrite Hf, bool_decide_eq_true_2 by eauto.
    cbn [negb ret]. unfold readFileSync. rewrite Hf.
    by destruct (startsWith _ _).
  - rewrite addShebang_missing by done.
    unfold V1.addShebang, bind, existsSync. rewrite Hf.
    by rewrite bool_decide_eq_false_2 by (by intros [? ?]).
Qed.

(** C10: the shebang line starts with [#!]; so after the applier has
    written a file that had no shebang, the file starts with [#!], and
    applying again without force (any command, dry run or not) returns
    with every file as it was. *)
Theorem second_application_is_inert (w : world) (filePath executable executable' : jsstring)
    (f : file) (o o' : V2.options) :
  files w !! filePath = Some f ->
  startsWith (content f) (lit "#!") = false ->
  V2.dryRun o = false ->
  V2.force o' = false ->
  let w1 := (V2.addShebang filePath executable o w).2 in
  startsWith (V2.createShebang executable) (lit "#!") = true
  /\ (exists f1, files w1 !! filePath = Some f1
                 /\ startsWith (content f1) (lit "#!") = true)
  /\ (V2.addShebang filePath executable' o' w1).1 = Normal tt
  /\ files (V2.addShebang filePath executable' o' w1).2 = files w1.
Proof.
  intros Hf Hstart Hdry Hforce w1.
  assert (Hw1 : files w1 !! filePath
                = Some (File (utf8_encode ((V2.createShebang executable ++ [LF])
                                           ++ content f)) o755)).
  { subst w1. rewrite (addShebang_found _ _ _ _ f Hf), Hstart, Hdry.
    rewrite (addShebang_write_run _ _ f _ _ Hf). cbn [snd files].
    by rewrite store_lookup_insert_eq. }
  assert (Hstart1 : startsWith
                      (content (File (utf8_encode ((V2.createShebang executable ++ [LF])
                                                   ++ content f)) o755))
                      (lit "#!") = true) by apply written_shebang.
  split; [apply createShebang_prefix|]. split; [eauto|].
  rewrite (addShebang_found _ _ _ _ _ Hw1), Hstart1, Hforce.
  by destruct (V2.dryRun o').
Qed.

(** ** Argument parsing *)

Lemma wordChars1_spec (s : jsstring) :
  wordChars1 s = true <-> s <> [] /\ Forall (fun c => isWordChar c = true) s.
Proof.
  assert (Hclass : forall c, isWordChar c || isDigit c = isWordChar c).
  { intros c. unfold isWordChar. destruct (isDigit c); by rewrite ?orb_true_r, ?orb_false_r. }
  destruct s as [|c s]; [split; [done | by intros [? _]]|].
  unfold wordChars1. rewrite forallb_forall, Forall_forall.
  split.
  - intros H. split; [done|]. intros x Hx%list_elem_of_In.
    rewrite <- Hclass. by apply H.
  - intros [_ H] x Hx%list_elem_of_In. rewrite Hclass. by apply H.
Qed.

(** The tokens that [/^--?[\w\d]+$/] matches: one or two hyphens, then one
    word character or more, and nothing else. *)
Lemma match_option_spec (arg : jsstring) :
  match_option arg = true
  <-> exists hyphens body,
        arg = hyphens ++ body
        /\ (hyphens = [HYPHEN] \/ hyphens = [HYPHEN; HYPHEN])
        /\ body <> [] /\ Forall (fun c => isWordChar c = true) body.
Proof.
  split.
  - destruct arg as [|h rest]; [done|]. cbn [match_option].
    rewrite andb_true_iff, orb_true_iff, N.eqb_eq. intros [-> [Htwo|Hone]].
    + destruct rest as [|h2 rest']; [done|].
      apply andb_true_iff in Htwo as [->%N.eqb_eq Hbody].
      apply wordChars1_spec in Hbody as [? ?].
      exists [HYPHEN; HYPHEN], rest'. auto.
    + apply wordChars1_spec in Hone as [? ?]. exists [HYPHEN], rest. auto.
  - intros (hyphens & body & -> & Hhy & Hbody). apply wordChars1_spec in Hbody.
    destruct Hhy as [->| ->]; cbn [app match_option]; rewrite N.eqb_refl.
    + rewrite Hbody. by rewrite orb_true_r.
    + by rewrite Hbody.
Qed.

Lemma not_recognized (arg : jsstring) :
  bool_decide (arg = lit "--help") || bool_decide (arg = lit "-h") = false ->
  bool_decide (arg = lit "--version") || bool_decide (arg = lit "-v") = false ->
  bool_decide (arg = lit "--force") || bool_decide (arg = lit "-f") = false ->
  bool_decide (arg = lit "--dry-run") || bool_decide (arg = lit "-n") = false ->
  arg ∉ recognized_options.
Proof.
  rewrite !orb_false_iff, !bool_decide_eq_false.
  intros [? ?] [? ?] [? ?] [? ?]. unfold recognized_options.
  rewrite !not_elem_of_cons. repeat split; try done. apply not_elem_of_nil.
Qed.

Lemma recognized (arg : jsstring) (a b : jsstring) :
  a ∈ recognized_options -> b ∈ recognized_options ->
  bool_decide (arg = a) || bool_decide (arg = b) = true ->
  arg ∈ recognized_options.
Proof.
  rewrite orb_true_iff, !bool_decide_eq_true. by intros ? ? [->| ->].
Qed.

Section MainCatch.

Variable pkg_version : jsstring.
Variable json : Type.
Variable JSON_parse : jsstring -> option json.
Variable bang_entries : json -> option (list (jsstring * jsstring)).

Local Abbreviation main := (V2.main pkg_version json JSON_parse bang_entries).

(** The [catch] block of [main] ends the process with code 1. *)
Lemma catch_exits (message : jsstring) (w : world) :
  exists w',
    (console_error (lit "Error: " ++ message);;
     V2.printUsage console_error;;
     @process_exit unit 1) w = (Exit 1, w')
    /\ files w' = files w.
Proof. eexists. split; reflexivity. Qed.

(** What [main] does when [parseArgs] throws: the [catch] block. *)
Lemma main_catch (args : list jsstring) (w : world) (message : jsstring) :
  V2.parseArgs args w = (Throw message, w) ->
  main args w
  = (console_error (lit "Error: " ++ message);;
     V2.printUsage console_error;;
     process_exit 1) w.
Proof.
  intros Hthrow.
  unfold V2.main at 1. unfold bind at 1. unfold try_catch.
  rewrite Hthrow. reflexivity.
Qed.

End MainCatch.

(** C3 fails for tokens that start with a hyphen and are not matched by the
    pattern of [parseArgs]: [--foo-bar] and [-S node] are kept as positional
    values, and with [-S node] as the command the run adds a shebang and
    ends with exit code 0. *)
Lemma hyphen_token_counterexample :
  startsWith (lit "--foo-bar") (lit "--") = true
  /\ (lit "--foo-bar" ∉ recognized_options)
  /\ V2.parseArgs [lit "--foo-bar"; lit "node"] sample_world
     = (Normal (no_options, [lit "--foo-bar"; lit "node"]), sample_world)
  /\ startsWith (lit "-S node") (lit "-") = true
  /\ (lit "-S node" ∉ recognized_options)
  /\ V2.parseArgs [lit "b.js"; lit "-S node"] sample_world
     = (Normal (no_options, [lit "b.js"; lit "-S node"]), sample_world)
  /\ exit_code (V2.main (lit "1.0.0") unit (fun _ => None) (fun _ => None)
                  [lit "b.js"; lit "-S node"] sample_world).1 = 0
  /\ content <$> files (V2.main (lit "1.0.0") unit (fun _ => None) (fun _ => None)
                          [lit "b.js"; lit "-S node"] sample_world).2 !! lit "b.js"
     = Some (lit "#!/usr/bin/env node" ++ [LF] ++ lit "console.log(1)").
Proof.
  split; [reflexivity|]. split; [decide_not_in|]. split; [vm_compute; reflexivity|].
  split; [reflexivity|]. split; [decide_not_in|]. split; [vm_compute; reflexivity|].
  split; vm_compute; reflexivity.
Qed.

(** ** The batch *)

(** The first element of a list with a decidable property, and what comes
    before and after it. *)
Lemma first_such {A} (P : A -> Prop) `{!forall x, Decision (P x)} (l : list A) :
  Exists P l ->
  exists pre x post, l = pre ++ x :: post /\ Forall (fun y => ~ P y) pre /\ P x.
Proof.
  induction l as [|a l IH]; intros Hex; [by apply Exists_nil in Hex|].
  destruct (decide (P a)) as [Ha|Hna].
  - exists [], a, l. auto.
  - apply Exists_cons in Hex as [?|Hex]; [done|].
    destruct (IH Hex) as (pre & x & post & -> & Hpre & Hx).
    exists (a :: pre), x, post. auto.
Qed.

Section Batch.

Variable o : V2.options.

(** Targets that all exist are processed to the end, and the same paths
    exist afterwards. *)
Lemma process_batch_existing (pre : list (jsstring * jsstring)) :
  forall w,
    Forall (fun t => is_Some (files w !! t.1)) pre ->
    exists w', process_batch pre o w = (Normal tt, w')
               /\ forall path, is_Some (files w' !! path) <-> is_Some (files w !! path).
Proof.
  induction pre as [|[filePath executable] pre IH]; intros w Hall.
  - by exists w.
  - apply Forall_cons in Hall as [Hhere Hall]. cbn [fst] in Hhere.
    pose proof (addShebang_completion filePath executable o w) as Hdone.
    rewrite bool_decide_eq_true_2 in Hdone by done.
    pose proof (addShebang_exists filePath executable o w) as Hsame.
    destruct (V2.addShebang filePath executable o w) as [c w1] eqn:Hrun.
    cbn [fst snd] in Hdone, Hsame. subst c.
    destruct (IH w1) as (w' & Hbatch & Hsame').
    { eapply Forall_impl; [exact Hall|]. intros t Ht. by apply Hsame. }
    exists w'. split.
    + unfold process_batch in *. cbn [for_of fst snd]. unfold bind at 1.
      by rewrite Hrun.
    + intros path. by rewrite Hsame', Hsame.
Qed.

(** The batch on a list is the batch on its first part, then the batch on
    the rest. *)
Lemma process_batch_app (pre post : list (jsstring * jsstring)) :
  forall w w',
    process_batch pre o w = (Normal tt, w') ->
    process_batch (pre ++ post) o w = process_batch post o w'.
Proof.
  unfold process_batch.
  induction pre as [|t pre IH]; intros w w' Hpre.
  - cbn in Hpre. by injection Hpre as ->.
  - cbn [for_of app] in *. unfold bind at 1. unfold bind at 1 in Hpre.
    destruct (V2.addShebang t.1 t.2 o w) as [[[]| |] w1]; try done.
    by apply IH.
Qed.

(** A missing target ends the batch with exit code 1 whatever comes after
    it. *)
Lemma process_batch_abort (t : jsstring * jsstring) (post : list (jsstring * jsstring))
    (w : world) :
  files w !! t.1 = None ->
  process_batch (t :: post) o w
  = (Exit 1, World (files w) (console w ++ [missing_file_line t.1])).
Proof.
  intros Hnone. unfold process_batch. cbn [for_of]. unfold bind at 1.
  by rewrite addShebang_missing.
Qed.

End Batch.

(** C8: when some target of the manifest does not exist, the run stops at
    the first such target [t]: the targets [pre] before it, which all
    exist, have been processed in order (world [w']); then one line for
    [t] goes to the error stream and the process exits with code 1.  The
    final world is [w'] with that line, whatever the targets after [t] are:
    none of them is read, written or reported on. *)
Theorem missing_file_aborts_batch (pkg_version : jsstring) (json : Type)
    (JSON_parse : jsstring -> option json)
    (bang_entries : json -> option (list (jsstring * jsstring)))
    (args : list jsstring) (o : V2.options) (w : world)
    (manifest : file) (packageJson : json) (targets : list (jsstring * jsstring)) :
  V2.parseArgs args w = (Normal (o, []), w) ->
  V2.help o = false ->
  V2.version o = false ->
  files w !! lit "package.json" = Some manifest ->
  JSON_parse (content manifest) = Some packageJson ->
  bang_entries packageJson = Some targets ->
  Exists (fun t => files w !! t.1 = None) targets ->
  exists pre t post w',
    targets = pre ++ t :: post
    /\ Forall (fun t' => is_Some (files w !! t'.1)) pre
    /\ files w !! t.1 = None
    /\ process_batch pre o w = (Normal tt, w')
    /\ (forall post',
          process_batch (pre ++ t :: post') o w
          = (Exit 1, World (files w') (console w' ++ [missing_file_line t.1])))
    /\ V2.main pkg_version json JSON_parse bang_entries args w
       = (Exit 1, World (files w') (console w' ++ [missing_file_line t.1]))
    /\ exit_code (V2.main pkg_version json JSON_parse bang_entries args w).1 = 1.
Proof.
  intros Hparse Hhelp Hversion Hmanifest Hjson Hbang Hex.
  apply first_such in Hex as (pre & t & post & -> & Hpre & Hmissing);
    [|intros ?; apply _].
  assert (Hpre' : Forall (fun t' => is_Some (files w !! t'.1)) pre).
  { eapply Forall_impl; [exact Hpre|]. intros t' Ht'. cbn beta in Ht'.
    by destruct (files w !! t'.1). }
  destruct (process_batch_existing o pre w Hpre') as (w' & Hbatch & Hsame).
  assert (Hmissing' : files w' !! t.1 = None).
  { destruct (files w' !! t.1) eqn:E; [|done].
    assert (is_Some (files w !! t.1)) as [? ?] by (apply Hsame; eauto). congruence. }
  assert (Hany : forall post',
            process_batch (pre ++ t :: post') o w
            = (Exit 1, World (files w') (console w' ++ [missing_file_line t.1]))).
  { intros post'. rewrite (process_batch_app o pre _ w w' Hbatch).
    by apply process_batch_abort. }
  assert (Hmain : V2.main pkg_version json JSON_parse bang_entries args w
                  = (Exit 1, World (files w') (console w' ++ [missing_file_line t.1]))).
  { unfold V2.main. unfold bind at 1. unfold try_catch at 1. rewrite Hparse.
    rewrite Hhelp, Hversion.
    unfold bind at 1. unfold try_catch, bind at 1, readFileSync.
    rewrite Hmanifest, Hjson. unfold ret. rewrite Hbang.
    apply (Hany post). }
  exists pre, t, post, w'. repeat split; try done.
  by rewrite Hmain.
Qed.

Lemma missing_file_aborts_batch_witness :
  exists pre t post w',
    sample_targets = pre ++ t :: post
    /\ Forall (fun t' => is_Some (files sample_manifest_world !! t'.1)) pre
    /\ files sample_manifest_world !! t.1 = None
    /\ process_batch pre no_options sample_manifest_world = (Normal tt, w')
    /\ (forall post',
          process_batch (pre ++ t :: post') no_options sample_manifest_world
          = (Exit 1, World (files w') (console w' ++ [missing_file_line t.1])))
    /\ V2.main (lit "1.0.0") _ (sample_parse sample_targets) Some [] sample_manifest_world
       = (Exit 1, World (files w') (console w' ++ [missing_file_line t.1]))
    /\ exit_code (V2.main (lit "1.0.0") _ (sample_parse sample_targets) Some []
                    sample_manifest_world).1 = 1.
Proof.
  apply (missing_file_aborts_batch (lit "1.0.0") _ (sample_parse sample_targets) Some
           [] no_options sample_manifest_world (text_file (lit "{}") 420)
           sample_targets sample_targets).
  - reflexivity.
  - reflexivity.
  - reflexivity.
  - vm_compute; reflexivity.
  - reflexivity.
  - reflexivity.
  - apply Exists_cons_tl, Exists_cons_hd. vm_compute; reflexivity.
Defined.

Lemma second_application_is_inert_witness :
  let w1 := (V2.addShebang (lit "b.js") (lit "node") no_options sample_world).2 in
  startsWith (V2.createShebang (lit "node")) (lit "#!") = true
  /\ (exists f1, files w1 !! lit "b.js" = Some f1
                 /\ startsWith (content f1) (lit "#!") = true)
  /\ (V2.addShebang (lit "b.js") (lit "python3") no_options w1).1 = Normal tt
  /\ files (V2.addShebang (lit "b.js") (lit "python3") no_options w1).2 = files w1.
Proof.
  apply (second_application_is_inert sample_world (lit "b.js") (lit "node") (lit "python3")
           (text_file (lit "console.log(1)") 384) no_options no_options).
  - vm_compute; reflexivity.
  - vm_compute; reflexivity.
  - reflexivity.
  - reflexivity.
Defined.

(** ** The samples, evaluated *)
Example lit_shebang : lit "#!" = [35; 33].
Proof. reflexivity. Qed.

Example replace_dashS_node : replace_dashS (lit "-S node") = lit "node".
Proof. reflexivity. Qed.

Example replace_dashS_alone : replace_dashS (lit "-S") = lit "-S".
Proof. reflexivity. Qed.

Example split_join_ex :
  join [LF] (slice1 (split LF (lit "#!/bin/bash" ++ [LF] ++ lit "echo hi" ++ [LF] ++ lit "x")))
  = lit "echo hi" ++ [LF] ++ lit "x".
Proof. reflexivity. Qed.

Example match_option_ex :
  match_option (lit "--foo") = true /\ match_option (lit "-x") = true /\
  match_option (lit "--foo-bar") = false /\ match_option (lit "--") = false /\
  match_option (lit "-S node") = false.
Proof. repeat split; reflexivity. Qed.

(** A lone surrogate is written as U+FFFD, and a byte that starts no
    sequence is read as U+FFFD. *)
Example utf8_encode_lone_surrogate : utf8_encode [0x61; 0xD800; 0x62] = [0x61; 0xEF; 0xBF; 0xBD; 0x62].
Proof. reflexivity. Qed.

Example utf8_decode_invalid_byte : utf8_decode [0x61; 0xFF; 0x62] = [0x61; REPLACEMENT; 0x62].
Proof. reflexivity. Qed.

Example utf8_decode_pair : utf8_decode [0xF0; 0x9F; 0x98; 0x80] = [0xD83D; 0xDE00].
Proof. reflexivity. Qed.

(** Two path strings that resolve alike name one file: what is written
    under [./b.js] is read under [b.js]. *)
Example alias_node :
  content <$> files (V2.addShebang (lit "./b.js") (lit "node") no_options sample_world).2
                !! lit "b.js"
  = Some (lit "#!/usr/bin/env node" ++ [LF] ++ lit "console.log(1)").
Proof. vm_compute; reflexivity. Qed.

(** Scenarios 1 to 3 of the specification: the text written for a file
    without shebang. *)
Example scenario_node :
  files (V2.addShebang (lit "b.js") (lit "node") no_options sample_world).2 !! lit "b.js"
  = Some (text_file (lit "#!/usr/bin/env node" ++ [LF] ++ lit "console.log(1)") o755).
Proof. vm_compute; reflexivity. Qed.

Example scenario_uv :
  V2.createShebang (lit "uv run --script") = lit "#!/usr/bin/env -S uv run --script".
Proof. reflexivity. Qed.

Example scenario_dashS :
  V2.createShebang (lit "-S node") = lit "#!/usr/bin/env node".
Proof. reflexivity. Qed.

(** Scenario 5: force on a file with a shebang. *)
Example scenario_force :
  files (V2.addShebang (lit "a.sh") (lit "node") force_only sample_world).2 !! lit "a.sh"
  = Some (text_file (lit "#!/usr/bin/env node" ++ [LF] ++ lit "echo hi") o755).
Proof. vm_compute; reflexivity. Qed.

(** The batch of the samples stops at [gone.js]: [b.js] is written, [a.sh]
    is as it was. *)
Example batch_stops :
  (process_batch sample_targets force_only sample_manifest_world).1 = Exit 1
  /\ files (process_batch sample_targets force_only sample_manifest_world).2 !! lit "a.sh"
     = Some (text_file bash_script 420)
  /\ mode <$> files (process_batch sample_targets force_only sample_manifest_world).2
              !! lit "b.js" = Some o755.
Proof. repeat split; vm_compute; reflexivity. Qed.

(** * Further properties *)

(** ** The applier on one file *)

(** The shebang line has a line feed only where the command has one after
    its leading [-S] is stripped. *)
Lemma createShebang_line_feed (executable : jsstring) :
  LF ∉ replace_dashS executable -> LF ∉ V2.createShebang executable.
Proof.
  intros Hnot. unfold V2.createShebang.
  destruct (includes _ _); intros [Hin|Hin]%elem_of_app; try done;
    revert Hin; decide_not_in.
Qed.

(** What is left of decoded text after its first line survives encoding
    and decoding. *)
Lemma rest_after_first_line_stable (x : list N) :
  utf8_decode (utf8_encode (join [LF] (slice1 (split LF (utf8_decode x)))))
  = join [LF] (slice1 (split LF (utf8_decode x))).
Proof.
  destruct (decide (10 ∈ x)) as [Hin|Hnot].
  - apply list_elem_of_split_l in Hin as (a & b & -> & Ha).
    rewrite utf8_decode_line_feed, drop_first_line by by apply utf8_decode_no_line_feed.
    apply utf8_decode_stable.
  - by rewrite drop_only_line by by apply utf8_decode_no_line_feed.
Qed.

(** What the applier leaves in the file store, case by case. *)
Lemma addShebang_files (filePath executable : jsstring) (o : V2.options) (w : world) :
  files (V2.addShebang filePath executable o w).2 = files w
  \/ exists f text,
       files w !! filePath = Some f
       /\ V2.dryRun o = false
       /\ (text = content f /\ startsWith (content f) (lit "#!") = false
           \/ text = join [LF] (slice1 (split LF (content f)))
              /\ startsWith (content f) (lit "#!") = true /\ V2.force o = true)
       /\ files (V2.addShebang filePath executable o w).2
          = <[filePath := File (utf8_encode ((V2.createShebang executable ++ [LF]) ++ text))
                               o755]>
              (files w).
Proof.
  destruct (files w !! filePath) as [f|] eqn:Hf;
    [|left; by rewrite addShebang_missing].
  rewrite (addShebang_found _ _ _ _ f Hf).
  destruct (startsWith (content f) (lit "#!")) eqn:Hstart,
           (V2.dryRun o) eqn:Hdry, (V2.force o) eqn:Hforce;
    cbn [negb]; try (by left);
    right; eexists f, _; rewrite (addShebang_write_run _ _ f _ _ Hf);
    (split; [done|]); (split; [done|]); (split; [|done]); auto.
Qed.

(** The applier leaves the path resolution as it is. *)
Lemma addShebang_resolve (filePath executable : jsstring) (o : V2.options) (w : world) :
  resolve (files (V2.addShebang filePath executable o w).2) = resolve (files w).
Proof.
  destruct (addShebang_files filePath executable o w)
    as [->|(f & text & _ & _ & _ & ->)]; done.
Qed.

(** X1: the applier touches no file but its target: a path that does not
    resolve to the file of the target has the file it had, or none as
    before, whatever the options are. *)
Theorem addShebang_other_files (filePath executable path : jsstring)
    (o : V2.options) (w : world) :
  resolve (files w) path <> resolve (files w) filePath ->
  files (V2.addShebang filePath executable o w).2 !! path = files w !! path.
Proof.
  intros Hne.
  destruct (addShebang_files filePath executable o w)
    as [->|(f & text & _ & _ & _ & ->)]; [done|].
  by rewrite store_lookup_insert_ne.
Qed.

Lemma addShebang_other_files_witness :
  files (V2.addShebang (lit "./b.js") (lit "node") force_only sample_world).2 !! lit "a.sh"
  = files sample_world !! lit "a.sh".
Proof.
  apply (addShebang_other_files (lit "./b.js") (lit "node") (lit "a.sh")
           force_only sample_world).
  vm_compute. discriminate.
Defined.

(** X2: on a file without shebang and without dry run the applier writes
    the UTF-8 form of the shebang line, a line feed and the text it read,
    sets the mode to [0o755] and reports the addition on the standard
    output; force makes no difference.  When the bytes of the file are
    well-formed UTF-8, what is written is the shebang line, a line feed
    and these bytes as they were. *)
Theorem addShebang_prepends (filePath executable : jsstring) (f : file)
    (o : V2.options) (w : world) :
  files w !! filePath = Some f ->
  startsWith (content f) (lit "#!") = false ->
  V2.dryRun o = false ->
  V2.addShebang filePath executable o w
  = (Normal tt,
     World (<[filePath := File (utf8_encode (V2.createShebang executable ++ [LF]
                                             ++ content f)) o755]>
              (files w))
           (console w
            ++ [(Stdout, lit "Added shebang '" ++ trim (V2.createShebang executable ++ [LF])
                         ++ lit "' to '" ++ filePath ++ lit "' and made it executable")]))
  /\ (valid_utf8 (bytes f) ->
      utf8_encode (V2.createShebang executable ++ [LF] ++ content f)
      = utf8_encode (V2.createShebang executable) ++ 10 :: bytes f).
Proof.
  intros Hf Hstart Hdry. split.
  - rewrite (addShebang_found _ _ _ _ f Hf), Hstart, Hdry.
    by rewrite (addShebang_write_run _ _ f _ _ Hf), <- app_assoc.
  - intros Hvalid. cbn [app]. rewrite utf8_encode_line_feed. unfold content.
    by rewrite valid_utf8_stable.
Qed.

Lemma addShebang_prepends_witness :
  V2.addShebang (lit "b.js") (lit "node") force_only sample_world
  = (Normal tt,
     World (<[lit "b.js" := File (utf8_encode (V2.createShebang (lit "node") ++ [LF]
                                               ++ content (text_file (lit "console.log(1)")
                                                             384))) o755]>
              (files sample_world))
           (console sample_world
            ++ [(Stdout, lit "Added shebang '" ++ trim (V2.createShebang (lit "node") ++ [LF])
                         ++ lit "' to '" ++ lit "b.js" ++ lit "' and made it executable")]))
  /\ (valid_utf8 (bytes (text_file (lit "console.log(1)") 384)) ->
      utf8_encode (V2.createShebang (lit "node") ++ [LF]
                   ++ content (text_file (lit "console.log(1)") 384))
      = utf8_encode (V2.createShebang (lit "node"))
        ++ 10 :: bytes (text_file (lit "console.log(1)") 384)).
Proof.
  apply (addShebang_prepends (lit "b.js") (lit "node") (text_file (lit "console.log(1)") 384)
           force_only sample_world).
  - vm_compute; reflexivity.
  - vm_compute; reflexivity.
  - reflexivity.
Defined.

(** X3: every call of the applier prints one line, no more and no less;
    the line goes to the error stream when the file does not exist, and to
    the standard output otherwise. *)
Theorem addShebang_one_report (filePath executable : jsstring) (o : V2.options)
    (w : world) :
  exists text,
    console (V2.addShebang filePath executable o w).2
    = console w ++ [(if bool_decide (files w !! filePath = None) then Stderr else Stdout,
                     text)].
Proof.
  destruct (files w !! filePath) as [f|] eqn:Hf.
  - rewrite bool_decide_eq_false_2 by done.
    rewrite (addShebang_found _ _ _ _ f Hf).
    destruct (startsWith _ _), (V2.dryRun o), (V2.force o); cbn [negb];
      rewrite ?(addShebang_write_run _ _ f _ _ Hf); by eexists.
  - rewrite bool_decide_eq_true_2 by done. rewrite addShebang_missing by done.
    by eexists.
Qed.

Lemma addShebang_leaves_step (filePath executable : jsstring) (f : file)
    (o : V2.options) (w : world) :
  files w !! filePath = Some f ->
  V2.dryRun o = false ->
  has_shebang (V2.addShebang filePath executable o w).2 filePath.
Proof.
  intros Hf Hdry. unfold has_shebang.
  rewrite (addShebang_found _ _ _ _ f Hf), Hdry.
  destruct (startsWith (content f) (lit "#!")) eqn:Hstart;
    [destruct (V2.force o); cbn [negb]; [|by exists f]|];
    rewrite (addShebang_write_run _ _ f _ _ Hf); cbn [snd files];
    rewrite store_lookup_insert_eq; eexists; (split; [done|]); apply written_shebang.
Qed.

(** X4: after the applier ran on an existing file without dry run, the
    file starts with [#!], whatever it held and whatever force is. *)
Theorem addShebang_leaves_shebang (filePath executable : jsstring) (f : file)
    (o : V2.options) (w : world) :
  files w !! filePath = Some f ->
  V2.dryRun o = false ->
  has_shebang (V2.addShebang filePath executable o w).2 filePath.
Proof. exact (addShebang_leaves_step filePath executable f o w). Qed.

Lemma addShebang_leaves_shebang_witness :
  has_shebang (V2.addShebang (lit "b.js") (lit "node") no_options sample_world).2
    (lit "b.js").
Proof.
  apply (addShebang_leaves_shebang (lit "b.js") (lit "node")
           (text_file (lit "console.log(1)") 384) no_options sample_world).
  - vm_compute; reflexivity.
  - reflexivity.
Defined.

(** X5: with force and without dry run, applying the same command a second
    time changes nothing more: the files after the second run are the
    files after the first.  The command must hold no line feed: with one,
    the shebang spans two lines and the second run drops only the first of
    them. *)
Theorem addShebang_force_twice (filePath executable : jsstring) (f : file)
    (o : V2.options) (w : world) :
  files w !! filePath = Some f ->
  V2.force o = true ->
  V2.dryRun o = false ->
  LF ∉ replace_dashS executable ->
  files (V2.addShebang filePath executable o (V2.addShebang filePath executable o w).2).2
  = files (V2.addShebang filePath executable o w).2.
Proof.
  intros Hf Hforce Hdry Hline.
  assert (Hfirst : exists rest,
            utf8_decode (utf8_encode rest) = rest
            /\ files (V2.addShebang filePath executable o w).2
               = <[filePath := File (utf8_encode ((V2.createShebang executable ++ [LF])
                                                  ++ rest)) o755]>
                   (files w)).
  { rewrite (addShebang_found _ _ _ _ f Hf), Hforce, Hdry. cbn [negb].
    destruct (startsWith _ _); rewrite (addShebang_write_run _ _ f _ _ Hf);
      eexists; (split; [|done]).
    - apply rest_after_first_line_stable.
    - apply utf8_decode_stable. }
  destruct Hfirst as (rest & Hstable & Hfirst).
  set (w1 := (V2.addShebang filePath executable o w).2) in *.
  set (f1 := File (utf8_encode ((V2.createShebang executable ++ [LF]) ++ rest)) o755) in *.
  assert (Hf1 : files w1 !! filePath = Some f1)
    by (by rewrite Hfirst, store_lookup_insert_eq).
  assert (Htext : content f1
                  = utf8_decode (utf8_encode (V2.createShebang executable)) ++ LF :: rest).
  { unfold content, f1. cbn [bytes]. rewrite <- app_assoc. cbn [app].
    by rewrite utf8_encode_line_feed, utf8_decode_line_feed, Hstable. }
  assert (Hstart : startsWith (content f1) (lit "#!") = true) by apply written_shebang.
  rewrite (addShebang_found _ _ _ _ _ Hf1), Hstart, Hforce, Hdry. cbn [negb].
  rewrite (addShebang_write_run _ _ _ _ _ Hf1). cbn [snd files].
  rewrite Htext, drop_first_line.
  2:{ by apply utf8_decode_no_line_feed, utf8_encode_no_line_feed,
        createShebang_line_feed. }
  by rewrite Hfirst, store_insert_insert_eq.
Qed.

Lemma addShebang_force_twice_witness :
  files (V2.addShebang (lit "a.sh") (lit "node") force_only
           (V2.addShebang (lit "a.sh") (lit "node") force_only sample_world).2).2
  = files (V2.addShebang (lit "a.sh") (lit "node") force_only sample_world).2.
Proof.
  apply (addShebang_force_twice (lit "a.sh") (lit "node") (text_file bash_script 420)
           force_only sample_world).
  - vm_compute; reflexivity.
  - reflexivity.
  - reflexivity.
  - decide_not_in.
Defined.

(** A file that starts with [#!] still does after the applier ran, on
    that file or on another one, with any options. *)
Lemma addShebang_keeps_shebang (filePath executable path : jsstring)
    (o : V2.options) (w : world) :
  has_shebang w path ->
  has_shebang (V2.addShebang filePath executable o w).2 path.
Proof.
  intros (f & Hf & Hstart). unfold has_shebang.
  destruct (addShebang_files filePath executable o w)
    as [->|(f' & text & _ & _ & _ & ->)]; [eauto|].
  destruct (decide (resolve (files w) filePath = resolve (files w) path)) as [Heq|Hne].
  - rewrite (store_lookup_insert_alias _ _ _ _ Heq). eexists. split; [done|].
    apply written_shebang.
  - rewrite store_lookup_insert_ne by done. eauto.
Qed.

(** ** The batch *)

Section BatchMore.

Variable o : V2.options.

(** The batch, one target at a time. *)
Lemma process_batch_cons (t : jsstring * jsstring) (targets : list (jsstring * jsstring))
    (w : world) :
  process_batch (t :: targets) o w
  = match V2.addShebang t.1 t.2 o w with
    | (Normal _, w') => process_batch targets o w'
    | (Throw e, w') => (Throw e, w')
    | (Exit c, w') => (Exit c, w')
    end.
Proof. reflexivity. Qed.

(** The batch leaves the path resolution as it is. *)
Lemma process_batch_resolve (targets : list (jsstring * jsstring)) (w : world) :
  resolve (files (process_batch targets o w).2) = resolve (files w).
Proof.
  revert w. induction targets as [|t targets IH]; intros w; [done|].
  rewrite process_batch_cons.
  pose proof (addShebang_resolve t.1 t.2 o w) as Hstep.
  destruct (V2.addShebang t.1 t.2 o w) as [[[]| |] w1]; cbn [snd] in *; try done.
  by rewrite IH.
Qed.

(** X6: the batch touches no file outside its targets: a path that does
    not resolve to the file of a target has after the batch the file it had
    before, whether the batch ran to its end or stopped at a missing
    file. *)
Theorem process_batch_other_files (targets : list (jsstring * jsstring))
    (path : jsstring) (w : world) :
  Forall (fun t => resolve (files w) path <> resolve (files w) t.1) targets ->
  files (process_batch targets o w).2 !! path = files w !! path.
Proof.
  revert w. induction targets as [|t targets IH]; intros w Hnot; [done|].
  apply Forall_cons in Hnot as [Hne Hnot].
  rewrite process_batch_cons.
  assert (Hstep : files (V2.addShebang t.1 t.2 o w).2 !! path = files w !! path).
  { destruct (addShebang_files t.1 t.2 o w) as [->|(f & text & _ & _ & _ & ->)];
      [done | by rewrite store_lookup_insert_ne]. }
  pose proof (addShebang_resolve t.1 t.2 o w) as Hres.
  destruct (V2.addShebang t.1 t.2 o w) as [[[]| |] w1]; cbn [snd] in *; try done.
  rewrite IH; [done|]. by rewrite Hres.
Qed.

(** The batch keeps the shebang of every file that has one. *)
Lemma process_batch_keeps_shebang (targets : list (jsstring * jsstring))
    (path : jsstring) (w : world) :
  has_shebang w path -> has_shebang (process_batch targets o w).2 path.
Proof.
  revert w. induction targets as [|t targets IH]; intros w Hhas; [done|].
  rewrite process_batch_cons.
  pose proof (addShebang_keeps_shebang t.1 t.2 path o w Hhas) as Hstep.
  destruct (V2.addShebang t.1 t.2 o w) as [[[]| |] w1]; cbn [snd] in *; try done.
  by apply IH.
Qed.

(** X7: when every target exists and there is no dry run, the batch runs to
    its end and afterwards every target starts with [#!]: a later target
    does not undo what was done for an earlier one. *)
Theorem process_batch_all_shebangs (targets : list (jsstring * jsstring)) (w : world) :
  Forall (fun t => is_Some (files w !! t.1)) targets ->
  V2.dryRun o = false ->
  (process_batch targets o w).1 = Normal tt
  /\ Forall (fun t => has_shebang (process_batch targets o w).2 t.1) targets.
Proof.
  intros Hall Hdry. revert w Hall.
  induction targets as [|t targets IH]; intros w Hall; [done|].
  apply Forall_cons in Hall as [[f Hf] Hall].
  rewrite process_batch_cons.
  pose proof (addShebang_completion t.1 t.2 o w) as Hdone.
  rewrite bool_decide_eq_true_2 in Hdone by eauto.
  pose proof (addShebang_leaves_step t.1 t.2 f o w Hf Hdry) as Hhere.
  pose proof (addShebang_exists t.1 t.2 o w) as Hsame.
  destruct (V2.addShebang t.1 t.2 o w) as [c w1]. cbn [fst snd] in *. subst c.
  destruct (IH w1) as [Hrun Hrest].
  { eapply Forall_impl; [exact Hall|]. intros t' Ht'. by apply Hsame. }
  split; [done|]. apply Forall_cons. split; [|done].
  by apply process_batch_keeps_shebang.
Qed.

End BatchMore.

Lemma process_batch_other_files_witness :
  files (process_batch sample_targets force_only sample_manifest_world).2
    !! lit "package.json"
  = files sample_manifest_world !! lit "package.json".
Proof.
  apply (process_batch_other_files force_only sample_targets (lit "package.json")
           sample_manifest_world).
  repeat apply Forall_cons_2; try apply Forall_nil_2; vm_compute; discriminate.
Defined.

Lemma process_batch_all_shebangs_witness :
  (process_batch [(lit "b.js", lit "node"); (lit "a.sh", lit "bash")]
     no_options sample_world).1 = Normal tt
  /\ Forall (fun t => has_shebang
                        (process_batch [(lit "b.js", lit "node"); (lit "a.sh", lit "bash")]
                           no_options sample_world).2 t.1)
       [(lit "b.js", lit "node"); (lit "a.sh", lit "bash")].
Proof.
  apply (process_batch_all_shebangs no_options
           [(lit "b.js", lit "node"); (lit "a.sh", lit "bash")] sample_world).
  - repeat apply Forall_cons_2; try apply Forall_nil_2; vm_compute; eauto.
  - reflexivity.
Defined.

(** ** Argument parsing, in full *)

Lemma flag_given_cons (long short arg : jsstring) (args : list jsstring) :
  flag_given long short (arg :: args)
  = bool_decide (arg = long) || bool_decide (arg = short) || flag_given long short args.
Proof.
  unfold flag_given.
  destruct (bool_decide (arg = long)) eqn:E1; [|destruct (bool_decide (arg = short)) eqn:E2].
  - apply bool_decide_eq_true in E1 as ->. cbn [orb].
    apply bool_decide_eq_true. left. apply elem_of_cons. by left.
  - apply bool_decide_eq_true in E2 as ->. cbn [orb].
    apply bool_decide_eq_true. right. apply elem_of_cons. by left.
  - apply bool_decide_eq_false in E1, E2. cbn [orb].
    apply bool_decide_ext. rewrite !elem_of_cons.
    split; [intros [[Heq|Hin]|[Heq|Hin]] | intros [Hin|Hin]]; auto; congruence.
Qed.

Lemma flag_given_nil (long short : jsstring) : flag_given long short [] = false.
Proof.
  apply bool_decide_eq_false_2. intros [H|H]; by apply elem_of_nil in H.
Qed.

(** The tests of two different flags do not hold together. *)
Lemma flag_tests_exclusive (arg a b c d : jsstring) :
  a <> c -> a <> d -> b <> c -> b <> d ->
  bool_decide (arg = a) || bool_decide (arg = b) = true ->
  bool_decide (arg = c) || bool_decide (arg = d) = false.
Proof.
  intros Hac Had Hbc Hbd. rewrite orb_true_iff, orb_false_iff, !bool_decide_eq_true,
    !bool_decide_eq_false. intros [Heq|Heq]; subst arg; split; assumption.
Qed.

Lemma positionals_flag (arg : jsstring) (args : list jsstring) :
  arg ∈ recognized_options -> positionals (arg :: args) = positionals args.
Proof.
  intros Hin. unfold positionals. by rewrite filter_cons_False by (intros Hnot; by apply Hnot).
Qed.

Lemma positionals_other (arg : jsstring) (args : list jsstring) :
  arg ∉ recognized_options -> positionals (arg :: args) = arg :: positionals args.
Proof. intros Hnot. unfold positionals. by rewrite filter_cons_True. Qed.

Section ParseArgs.

(** The loop of [parseArgs], whole: it throws for an unknown option, and
    otherwise sets the flags that occur, keeps the other tokens in their
    order, and leaves the world alone. *)
Lemma parseArgs_loop_spec (args : list jsstring) :
  forall (o : V2.options) (positional : list jsstring) (w : world),
    (exists t, t ∈ args /\ match_option t = true /\ (t ∉ recognized_options)
               /\ V2.parseArgs_loop args o positional w
                  = (Throw (lit "Unknown option '" ++ t ++ lit "'"), w))
    \/ (Forall accepted args
        /\ V2.parseArgs_loop args o positional w
           = (Normal (merged o args, positional ++ positionals args), w)).
Proof.
  assert (Hmem : forall a, In a recognized_options -> a ∈ recognized_options)
    by (intros a; apply list_elem_of_In).
  induction args as [|arg args IH]; intros o positional w.
  { right. split; [constructor|]. unfold merged. cbn [V2.parseArgs_loop].
    rewrite !flag_given_nil, !orb_false_r. unfold positionals. rewrite filter_nil, app_nil_r.
    by destruct o. }
  assert (Hflag : forall o',
            arg ∈ recognized_options ->
            merged o' args = merged o (arg :: args) ->
            (exists t, t ∈ arg :: args /\ match_option t = true /\ (t ∉ recognized_options)
                       /\ V2.parseArgs_loop args o' positional w
                          = (Throw (lit "Unknown option '" ++ t ++ lit "'"), w))
            \/ (Forall accepted (arg :: args)
                /\ V2.parseArgs_loop args o' positional w
                   = (Normal (merged o (arg :: args),
                              positional ++ positionals (arg :: args)), w))).
  { intros o' Hrec Hmerge.
    destruct (IH o' positional w) as [(t & Hin & Hm & Hn & Hloop)|[Hacc Hloop]].
    - left. exists t. repeat split; try done. apply elem_of_cons. by right.
    - right. split; [constructor; [by left | done]|].
      by rewrite positionals_flag, <- Hmerge. }
  cbn [V2.parseArgs_loop]. unfold merged in *.
  case_head_test w E1.
  { apply Hflag; [eapply recognized; [| |exact E1]; apply Hmem; simpl; tauto|].
    cbn [V2.help V2.version V2.force V2.dryRun]. rewrite !flag_given_cons, E1.
    rewrite (flag_tests_exclusive arg (lit "--help") (lit "-h") (lit "--version") (lit "-v")
               ltac:(literals_differ) ltac:(literals_differ) ltac:(literals_differ)
               ltac:(literals_differ) E1).
    rewrite (flag_tests_exclusive arg (lit "--help") (lit "-h") (lit "--force") (lit "-f")
               ltac:(literals_differ) ltac:(literals_differ) ltac:(literals_differ)
               ltac:(literals_differ) E1).
    rewrite (flag_tests_exclusive arg (lit "--help") (lit "-h") (lit "--dry-run") (lit "-n")
               ltac:(literals_differ) ltac:(literals_differ) ltac:(literals_differ)
               ltac:(literals_differ) E1).
    cbn [orb]. by rewrite orb_true_r. }
  case_head_test w E2.
  { apply Hflag; [eapply recognized; [| |exact E2]; apply Hmem; simpl; tauto|].
    cbn [V2.help V2.version V2.force V2.dryRun]. rewrite !flag_given_cons, E1, E2.
    rewrite (flag_tests_exclusive arg (lit "--version") (lit "-v") (lit "--force") (lit "-f")
               ltac:(literals_differ) ltac:(literals_differ) ltac:(literals_differ)
               ltac:(literals_differ) E2).
    rewrite (flag_tests_exclusive arg (lit "--version") (lit "-v") (lit "--dry-run") (lit "-n")
               ltac:(literals_differ) ltac:(literals_differ) ltac:(literals_differ)
               ltac:(literals_differ) E2).
    cbn [orb]. by rewrite orb_true_r. }
  case_head_test w E3.
  { apply Hflag; [eapply recognized; [| |exact E3]; apply Hmem; simpl; tauto|].
    cbn [V2.help V2.version V2.force V2.dryRun]. rewrite !flag_given_cons, E1, E2, E3.
    rewrite (flag_tests_exclusive arg (lit "--force") (lit "-f") (lit "--dry-run") (lit "-n")
               ltac:(literals_differ) ltac:(literals_differ) ltac:(literals_differ)
               ltac:(literals_differ) E3).
    cbn [orb]. by rewrite orb_true_r. }
  case_head_test w E4.
  { apply Hflag; [eapply recognized; [| |exact E4]; apply Hmem; simpl; tauto|].
    cbn [V2.help V2.version V2.force V2.dryRun]. rewrite !flag_given_cons, E1, E2, E3, E4.
    cbn [orb]. by rewrite orb_true_r. }
  pose proof (not_recognized arg E1 E2 E3 E4) as Hnot.
  case_head_test w E5.
  - left. exists arg. repeat split; try done. apply elem_of_cons. by left.
  - destruct (IH o (positional ++ [arg]) w) as [(t & Hin & Hm & Hn & Hloop)|[Hacc Hloop]].
    + left. exists t. repeat split; try done. apply elem_of_cons. by right.
    + right. split; [constructor; [by right | done]|].
      rewrite Hloop, positionals_other, <- app_assoc by done.
      by rewrite !flag_given_cons, E1, E2, E3, E4.
Qed.

(** [parseArgs] on a command line without unknown option. *)
Lemma parseArgs_accepted (args : list jsstring) (w : world) :
  Forall accepted args ->
  V2.parseArgs args w
  = if negb (Nat.eqb (List.length (positionals args)) 0)
       && negb (Nat.eqb (List.length (positionals args)) 2)
    then (Throw (lit "Invalid number of arguments"), w)
    else (Normal (options_of args, positionals args), w).
Proof.
  intros Hacc.
  destruct (parseArgs_loop_spec args (V2.Options false false false false) [] w)
    as [(t & Hin & Hm & Hn & _)|[_ Hloop]].
  - rewrite Forall_forall in Hacc. destruct (Hacc t Hin); [done | congruence].
  - unfold V2.parseArgs, bind. rewrite Hloop. cbn [snd app].
    by destruct (_ && _).
Qed.

(** [parseArgs] throws or returns, and the world is as it was. *)
Lemma parseArgs_cases (args : list jsstring) (w : world) :
  (exists message, V2.parseArgs args w = (Throw message, w))
  \/ (V2.parseArgs args w = (Normal (options_of args, positionals args), w)
      /\ (positionals args = []
          \/ exists filePath executable, positionals args = [filePath; executable])).
Proof.
  destruct (parseArgs_loop_spec args (V2.Options false false false false) [] w)
    as [(t & _ & _ & _ & Hloop)|[Hacc _]].
  - left. eexists. unfold V2.parseArgs, bind. by rewrite Hloop.
  - rewrite (parseArgs_accepted args w Hacc).
    destruct (positionals args) as [|p [|e [|x l]]]; cbn [List.length Nat.eqb negb andb].
    + right. split; [done|]. by left.
    + left. by eexists.
    + right. split; [done|]. right. by exists p, e.
    + left. by eexists.
Qed.

End ParseArgs.

(** The form of an option is what the pattern of [parseArgs] matches. *)
Lemma option_form_match (t : jsstring) : option_form t <-> match_option t = true.
Proof. symmetry. apply match_option_spec. Qed.

Lemma plain_token_accepted (t : jsstring) : plain_token t <-> accepted t.
Proof.
  unfold plain_token, accepted. rewrite option_form_match.
  destruct (match_option t); split; intros [?|?]; auto; done.
Qed.

(** The loop throws for the first token that has the form of an option and
    is no flag, whatever comes after it. *)
Lemma parseArgs_loop_first_unknown (pre : list jsstring) (t : jsstring)
    (post : list jsstring) :
  Forall accepted pre ->
  match_option t = true ->
  t ∉ recognized_options ->
  forall (o : V2.options) (positional : list jsstring) (w : world),
    V2.parseArgs_loop (pre ++ t :: post) o positional w
    = (Throw (lit "Unknown option '" ++ t ++ lit "'"), w).
Proof.
  intros Hpre Hmatch Hnot o positional w.
  revert o positional. induction Hpre as [|x pre Hx Hpre IH]; intros o positional.
  - cbn [app V2.parseArgs_loop].
    unfold recognized_options in Hnot. rewrite !not_elem_of_cons in Hnot.
    destruct Hnot as (? & ? & ? & ? & ? & ? & ? & ? & _).
    rewrite !(bool_decide_eq_false_2 (t = _)) by done. cbn [orb]. by rewrite Hmatch.
  - cbn [app V2.parseArgs_loop].
    case_head_test w E1; [apply IH|].
    case_head_test w E2; [apply IH|].
    case_head_test w E3; [apply IH|].
    case_head_test w E4; [apply IH|].
    pose proof (not_recognized x E1 E2 E3 E4) as Hxn.
    destruct Hx as [?|Hxm]; [done|]. rewrite Hxm. apply IH.
Qed.

Section UnknownOption.

Variable pkg_version : jsstring.
Variable json : Type.
Variable JSON_parse : jsstring -> option json.
Variable bang_entries : json -> option (list (jsstring * jsstring)).

Local Abbreviation main := (V2.main pkg_version json JSON_parse bang_entries).

(** C3, as the code has it.  A token of one or two hyphens followed by word
    characters only ([A-Za-z0-9_], one at least) that is none of the eight
    recognised options is fatal: [parseArgs] throws the unknown-option
    error for the first such token of the command line, and [main] prints
    the error and the usage on the error stream and exits with code 1
    without changing a file.  Every other token that is no flag, also one
    that starts with a hyphen ([--foo-bar], [-], [-S node]), is a
    positional value: on a command line without a token of the fatal form
    [parseArgs] sets the flags that occur and returns all other tokens in
    their order, or throws for their number when it is neither 0 nor 2. *)
Theorem unknown_option_is_fatal (args : list jsstring) (w : world) :
  (forall t,
     t ∈ args -> option_form t -> t ∉ recognized_options ->
     exists pre t' post,
       args = pre ++ t' :: post
       /\ Forall plain_token pre
       /\ option_form t' /\ (t' ∉ recognized_options)
       /\ V2.parseArgs args w = (Throw (lit "Unknown option '" ++ t' ++ lit "'"), w)
       /\ main args w
          = (console_error (lit "Error: " ++ lit "Unknown option '" ++ t' ++ lit "'");;
             V2.printUsage console_error;;
             process_exit 1) w
       /\ (main args w).1 = Exit 1
       /\ exit_code (main args w).1 = 1
       /\ files (main args w).2 = files w)
  /\ (Forall plain_token args ->
      (forall t, t ∈ args -> t ∉ recognized_options -> t ∈ positionals args)
      /\ V2.parseArgs args w
         = if bool_decide (List.length (positionals args) = 0%nat
                           \/ List.length (positionals args) = 2%nat)
           then (Normal (options_of args, positionals args), w)
           else (Throw (lit "Invalid number of arguments"), w)).
Proof.
  split.
  - intros t Hin Hform Hnot.
    destruct (first_such (fun x => match_option x = true /\ x ∉ recognized_options) args)
      as (pre & t' & post & -> & Hpre & Hm' & Hn').
    { apply Exists_exists. exists t. by rewrite <- option_form_match. }
    assert (Hacc : Forall accepted pre).
    { eapply Forall_impl; [exact Hpre|]. intros x Hx. cbn beta in Hx. unfold accepted.
      destruct (match_option x); [|by right]. left.
      destruct (decide (x ∈ recognized_options)); [done|]. by destruct Hx. }
    assert (Hparse : V2.parseArgs (pre ++ t' :: post) w
                     = (Throw (lit "Unknown option '" ++ t' ++ lit "'"), w)).
    { unfold V2.parseArgs, bind.
      by rewrite (parseArgs_loop_first_unknown pre t' post Hacc Hm' Hn'). }
    destruct (catch_exits (lit "Unknown option '" ++ t' ++ lit "'") w)
      as (w' & Hexit & Hfiles).
    exists pre, t', post. split; [done|]. split.
    { eapply Forall_impl; [exact Hacc|]. intros x. apply plain_token_accepted. }
    split; [by apply option_form_match|]. split; [done|]. split; [done|].
    rewrite (main_catch _ _ _ _ _ _ _ Hparse), Hexit. auto.
  - intros Hplain. split.
    + intros t Hin Hnot. unfold positionals. by apply list_elem_of_filter.
    + assert (Hacc : Forall accepted args).
      { eapply Forall_impl; [exact Hplain|]. intros x. apply plain_token_accepted. }
      rewrite (parseArgs_accepted args w Hacc).
      destruct (positionals args) as [|p [|e [|x l]]]; reflexivity.
Qed.

End UnknownOption.

Lemma unknown_option_is_fatal_witness :
  (exists pre t' post,
     [lit "-"; lit "--foo"; lit "-x"] = pre ++ t' :: post
     /\ Forall plain_token pre
     /\ option_form t' /\ (t' ∉ recognized_options)
     /\ V2.parseArgs [lit "-"; lit "--foo"; lit "-x"] sample_world
        = (Throw (lit "Unknown option '" ++ t' ++ lit "'"), sample_world)
     /\ V2.main (lit "1.0.0") unit (fun _ => None) (fun _ => None)
          [lit "-"; lit "--foo"; lit "-x"] sample_world
        = (console_error (lit "Error: " ++ lit "Unknown option '" ++ t' ++ lit "'");;
           V2.printUsage console_error;;
           process_exit 1) sample_world
     /\ (V2.main (lit "1.0.0") unit (fun _ => None) (fun _ => None)
           [lit "-"; lit "--foo"; lit "-x"] sample_world).1 = Exit 1
     /\ exit_code (V2.main (lit "1.0.0") unit (fun _ => None) (fun _ => None)
                     [lit "-"; lit "--foo"; lit "-x"] sample_world).1 = 1
     /\ files (V2.main (lit "1.0.0") unit (fun _ => None) (fun _ => None)
                 [lit "-"; lit "--foo"; lit "-x"] sample_world).2
        = files sample_world)
  /\ ((forall t, t ∈ [lit "-"; lit "-f"; lit "--foo-bar"] -> t ∉ recognized_options ->
                 t ∈ positionals [lit "-"; lit "-f"; lit "--foo-bar"])
      /\ V2.parseArgs [lit "-"; lit "-f"; lit "--foo-bar"] sample_world
         = if bool_decide
                (List.length (positionals [lit "-"; lit "-f"; lit "--foo-bar"]) = 0%nat
                 \/ List.length (positionals [lit "-"; lit "-f"; lit "--foo-bar"]) = 2%nat)
           then (Normal (options_of [lit "-"; lit "-f"; lit "--foo-bar"],
                         positionals [lit "-"; lit "-f"; lit "--foo-bar"]), sample_world)
           else (Throw (lit "Invalid number of arguments"), sample_world)).
Proof.
  split.
  - apply (proj1 (unknown_option_is_fatal (lit "1.0.0") unit (fun _ => None) (fun _ => None)
                    [lit "-"; lit "--foo"; lit "-x"] sample_world) (lit "-x")).
    + apply list_elem_of_In. vm_compute. tauto.
    + apply option_form_match. reflexivity.
    + decide_not_in.
  - apply (proj2 (unknown_option_is_fatal (lit "1.0.0") unit (fun _ => None) (fun _ => None)
                    [lit "-"; lit "-f"; lit "--foo-bar"] sample_world)).
    eapply Forall_impl; [|intros x; apply plain_token_accepted]. accepted_tokens.
Defined.

(** X8: on a command line whose tokens are all flags or values (no unknown
    option), [parseArgs] sets exactly the flags that occur, wherever they
    stand and however often, and keeps the other tokens in their order;
    it returns them when there are none or two of them, and throws
    [Invalid number of arguments] otherwise.  The world is as it was. *)
Theorem parseArgs_flags_anywhere (args : list jsstring) (w : world) :
  Forall accepted args ->
  V2.parseArgs args w
  = if bool_decide (List.length (positionals args) = 0%nat
                    \/ List.length (positionals args) = 2%nat)
    then (Normal (options_of args, positionals args), w)
    else (Throw (lit "Invalid number of arguments"), w).
Proof.
  intros Hacc. rewrite (parseArgs_accepted args w Hacc).
  destruct (positionals args) as [|p [|e [|x l]]]; reflexivity.
Qed.

Lemma parseArgs_flags_anywhere_witness :
  V2.parseArgs [lit "b.js"; lit "-n"; lit "node"; lit "--force"; lit "-n"] sample_world
  = (Normal (V2.Options false false true true, [lit "b.js"; lit "node"]), sample_world).
Proof.
  apply (parseArgs_flags_anywhere
           [lit "b.js"; lit "-n"; lit "node"; lit "--force"; lit "-n"] sample_world).
  accepted_tokens.
Defined.

(** ** The batch, whatever its targets *)

(** A dry run of the applier changes no file. *)
Lemma addShebang_dry_files (filePath executable : jsstring) (o : V2.options) (w : world) :
  V2.dryRun o = true ->
  files (V2.addShebang filePath executable o w).2 = files w.
Proof.
  intros Hdry.
  destruct (addShebang_files filePath executable o w)
    as [Hsame|(f & text & _ & Hno & _)]; [done | congruence].
Qed.

Lemma process_batch_dry_files (targets : list (jsstring * jsstring)) (o : V2.options) :
  V2.dryRun o = true ->
  forall w, files (process_batch targets o w).2 = files w.
Proof.
  intros Hdry. induction targets as [|t targets IH]; intros w; [done|].
  rewrite process_batch_cons.
  pose proof (addShebang_dry_files t.1 t.2 o w Hdry) as Hstep.
  destruct (V2.addShebang t.1 t.2 o w) as [[[]| |] w1]; cbn [snd] in *; try done.
  by rewrite IH.
Qed.

(** ** The entry point *)

Section MainBranches.

Variable pkg_version : jsstring.
Variable json : Type.
Variable JSON_parse : jsstring -> option json.
Variable bang_entries : json -> option (list (jsstring * jsstring)).

Local Abbreviation main := (V2.main pkg_version json JSON_parse bang_entries).

Variables (args : list jsstring) (o : V2.options) (positional : list jsstring) (w : world).

Hypothesis Hparse : V2.parseArgs args w = (Normal (o, positional), w).

Lemma main_help :
  V2.help o = true ->
  main args w = (V2.printUsage console_log;; process_exit 0) w.
Proof.
  intros Hhelp. unfold V2.main. unfold bind at 1. unfold try_catch at 1.
  by rewrite Hparse, Hhelp.
Qed.

Lemma main_version :
  V2.help o = false -> V2.version o = true ->
  main args w = (Exit 0, World (files w) (console w ++ [(Stdout, pkg_version)])).
Proof.
  intros Hhelp Hversion. unfold V2.main. unfold bind at 1. unfold try_catch at 1.
  by rewrite Hparse, Hhelp, Hversion.
Qed.

Lemma main_single (filePath executable : jsstring) :
  V2.help o = false -> V2.version o = false ->
  positional = [filePath; executable] ->
  main args w = V2.addShebang filePath executable o w.
Proof.
  intros Hhelp Hversion Hpos. unfold V2.main. unfold bind at 1. unfold try_catch at 1.
  by rewrite Hparse, Hhelp, Hversion, Hpos.
Qed.

Lemma main_unreadable :
  V2.help o = false -> V2.version o = false -> positional = [] ->
  files w !! lit "package.json" = None
  \/ (exists f, files w !! lit "package.json" = Some f /\ JSON_parse (content f) = None) ->
  main args w
  = (Exit 1, World (files w)
               (console w ++ [(Stderr, lit "Error: Could not read package.json")])).
Proof.
  intros Hhelp Hversion Hpos Hbad. unfold V2.main. unfold bind at 1. unfold try_catch at 1.
  rewrite Hparse, Hhelp, Hversion, Hpos.
  unfold bind at 1. unfold try_catch, bind at 1, readFileSync.
  destruct Hbad as [Hnone|(f & Hf & Hjson)].
  - by rewrite Hnone.
  - by rewrite Hf, Hjson.
Qed.

Lemma main_descriptor (f : file) (packageJson : json) :
  V2.help o = false -> V2.version o = false -> positional = [] ->
  files w !! lit "package.json" = Some f ->
  JSON_parse (content f) = Some packageJson ->
  main args w
  = match bang_entries packageJson with
    | None =>
        (Exit 1,
         World (files w)
           (console w
            ++ [(Stderr, lit "Error: No " ++ [DQUOTE] ++ lit "bang" ++ [DQUOTE]
                         ++ lit " configuration found in package.json");
                (Stderr, lit "Add a " ++ [DQUOTE] ++ lit "bang" ++ [DQUOTE]
                         ++ lit " field with file -> executable mappings")]))
    | Some entries => process_batch entries o w
    end.
Proof.
  intros Hhelp Hversion Hpos Hf Hjson. unfold V2.main. unfold bind at 1.
  unfold try_catch at 1. rewrite Hparse, Hhelp, Hversion, Hpos.
  unfold bind at 1. unfold try_catch, bind at 1, readFileSync.
  rewrite Hf, Hjson. unfold ret.
  destruct (bang_entries packageJson); [done|].
  unfold bind, console_error, print. cbn [files console]. by rewrite <- app_assoc.
Qed.

End MainBranches.

(** Without force the applier leaves a file that starts with [#!] as it
    is, be it the target or not. *)
Lemma addShebang_no_force_keeps (filePath executable path : jsstring)
    (o : V2.options) (w : world) :
  V2.force o = false ->
  has_shebang w path ->
  files (V2.addShebang filePath executable o w).2 !! path = files w !! path.
Proof.
  intros Hforce (f & Hf & Hstart).
  destruct (addShebang_files filePath executable o w)
    as [->|(f' & text & Hf' & _ & Hcase & ->)]; [done|].
  destruct (decide (resolve (files w) filePath = resolve (files w) path)) as [Heq|Hne];
    [|by rewrite store_lookup_insert_ne].
  rewrite (store_lookup_alias _ _ _ Heq) in Hf'.
  assert (f' = f) as -> by congruence.
  destruct Hcase as [[_ Hno]|(_ & _ & Hyes)]; congruence.
Qed.

Lemma process_batch_no_force_keeps (targets : list (jsstring * jsstring))
    (o : V2.options) (path : jsstring) :
  V2.force o = false ->
  forall w, has_shebang w path ->
            files (process_batch targets o w).2 !! path = files w !! path.
Proof.
  intros Hforce. induction targets as [|t targets IH]; intros w Hhas; [done|].
  rewrite process_batch_cons.
  pose proof (addShebang_no_force_keeps t.1 t.2 path o w Hforce Hhas) as Hstep.
  pose proof (addShebang_keeps_shebang t.1 t.2 path o w Hhas) as Hhas1.
  destruct (V2.addShebang t.1 t.2 o w) as [[[]| |] w1]; cbn [snd] in *; try done.
  by rewrite IH.
Qed.

Section MainMore.

Variable pkg_version : jsstring.
Variable json : Type.
Variable JSON_parse : jsstring -> option json.
Variable bang_entries : json -> option (list (jsstring * jsstring)).

Local Abbreviation main := (V2.main pkg_version json JSON_parse bang_entries).

(** Printing the usage and leaving with a code changes no file. *)
Lemma usage_exits (to : jsstring -> proc unit) (code : N) (w : world) :
  to = console_log \/ to = console_error ->
  exists w', (V2.printUsage to;; @process_exit unit code) w = (Exit code, w')
             /\ files w' = files w.
Proof. intros [->| ->]; eexists; split; reflexivity. Qed.

(** Every run of [main] is of one of four kinds: an error (exit code 1,
    no file changed), help or version (exit code 0, no file changed), the
    applier on the one target of the command line, or the batch on the
    entries of the manifest. *)
Lemma main_outcomes (args : list jsstring) (w : world) :
  (exists code w', (code = 0 \/ code = 1)
                   /\ main args w = (Exit code, w') /\ files w' = files w)
  \/ (exists filePath executable,
        main args w = V2.addShebang filePath executable (options_of args) w)
  \/ (exists entries, main args w = process_batch entries (options_of args) w).
Proof.
  destruct (parseArgs_cases args w) as [[message Hthrow]|[Hparse Hcount]].
  { left. rewrite (main_catch _ _ _ _ _ _ _ Hthrow).
    destruct (catch_exits message w) as (w' & Hexit & Hfiles).
    exists 1, w'. rewrite Hexit. auto. }
  destruct (V2.help (options_of args)) eqn:Hhelp.
  { left. rewrite (main_help _ _ _ _ _ _ _ _ Hparse Hhelp).
    destruct (usage_exits console_log 0 w) as (w' & Hexit & Hfiles); [by left|].
    exists 0, w'. rewrite Hexit. auto. }
  destruct (V2.version (options_of args)) eqn:Hversion.
  { left. rewrite (main_version _ _ _ _ _ _ _ _ Hparse Hhelp Hversion).
    exists 0. eexists. auto. }
  destruct Hcount as [Hnone|(filePath & executable & Htwo)].
  - destruct (files w !! lit "package.json") as [f|] eqn:Hf;
      [destruct (JSON_parse (content f)) as [packageJson|] eqn:Hjson|].
    + rewrite (main_descriptor _ _ _ _ _ _ _ _ Hparse f packageJson
                 Hhelp Hversion Hnone Hf Hjson).
      destruct (bang_entries packageJson) as [entries|].
      * right. right. by exists entries.
      * left. exists 1. eexists. auto.
    + left. rewrite (main_unreadable _ _ _ _ _ _ _ _ Hparse Hhelp Hversion Hnone)
        by (right; eauto).
      exists 1. eexists. auto.
    + left. rewrite (main_unreadable _ _ _ _ _ _ _ _ Hparse Hhelp Hversion Hnone)
        by (by left).
      exists 1. eexists. auto.
  - right. left. exists filePath, executable.
    apply (main_single _ _ _ _ _ _ _ _ Hparse _ _ Hhelp Hversion Htwo).
Qed.

(** X9: a wrong number of values is fatal: when the tokens that are no
    flags are neither none nor two, [main] prints the error and the usage on
    the error stream and exits with code 1; no file changes, and [--help]
    or [--version] on the same command line do not prevent it. *)
Theorem wrong_count_is_fatal (args : list jsstring) (w : world) :
  Forall accepted args ->
  List.length (positionals args) <> 0%nat ->
  List.length (positionals args) <> 2%nat ->
  main args w
  = (console_error (lit "Error: " ++ lit "Invalid number of arguments");;
     V2.printUsage console_error;;
     process_exit 1) w
  /\ (main args w).1 = Exit 1
  /\ files (main args w).2 = files w.
Proof.
  intros Hacc Hzero Htwo.
  assert (Hthrow : V2.parseArgs args w = (Throw (lit "Invalid number of arguments"), w)).
  { rewrite (parseArgs_accepted args w Hacc).
    destruct (positionals args) as [|p [|e [|x l]]]; done. }
  destruct (catch_exits (lit "Invalid number of arguments") w) as (w' & Hexit & Hfiles).
  rewrite (main_catch _ _ _ _ _ _ _ Hthrow), Hexit. auto.
Qed.

(** X10: help wins: on a command line that parses, [--help] or [-h] makes
    [main] print the usage on the standard output and exit with code 0,
    whatever else is given; the target is not touched. *)
Theorem help_wins (args : list jsstring) (w : world) :
  Forall accepted args ->
  List.length (positionals args) = 0%nat \/ List.length (positionals args) = 2%nat ->
  flag_given (lit "--help") (lit "-h") args = true ->
  main args w = (V2.printUsage console_log;; process_exit 0) w
  /\ (main args w).1 = Exit 0
  /\ files (main args w).2 = files w.
Proof.
  intros Hacc Hcount Hhelp.
  assert (Hparse : V2.parseArgs args w = (Normal (options_of args, positionals args), w)).
  { rewrite (parseArgs_accepted args w Hacc).
    destruct (positionals args) as [|p [|e [|x l]]]; try done; by destruct Hcount. }
  destruct (usage_exits console_log 0 w) as (w' & Hexit & Hfiles); [by left|].
  rewrite (main_help _ _ _ _ _ _ _ _ Hparse Hhelp), Hexit. auto.
Qed.

(** X11: without help, [--version] or [-v] makes [main] print the version
    of the package on the standard output and exit with code 0; nothing
    else is printed and no file changes. *)
Theorem version_prints (args : list jsstring) (w : world) :
  Forall accepted args ->
  List.length (positionals args) = 0%nat \/ List.length (positionals args) = 2%nat ->
  flag_given (lit "--help") (lit "-h") args = false ->
  flag_given (lit "--version") (lit "-v") args = true ->
  main args w = (Exit 0, World (files w) (console w ++ [(Stdout, pkg_version)])).
Proof.
  intros Hacc Hcount Hhelp Hversion.
  assert (Hparse : V2.parseArgs args w = (Normal (options_of args, positionals args), w)).
  { rewrite (parseArgs_accepted args w Hacc).
    destruct (positionals args) as [|p [|e [|x l]]]; try done; by destruct Hcount. }
  apply (main_version _ _ _ _ _ _ _ _ Hparse Hhelp Hversion).
Qed.

(** X12: with two values and neither help nor version, [main] is the
    applier on the first value as the file and the second as the command,
    with force and dry run as the flags say, wherever the flags stand among
    the values. *)
Theorem single_target_run (args : list jsstring) (filePath executable : jsstring)
    (w : world) :
  Forall accepted args ->
  positionals args = [filePath; executable] ->
  flag_given (lit "--help") (lit "-h") args = false ->
  flag_given (lit "--version") (lit "-v") args = false ->
  main args w
  = V2.addShebang filePath executable
      (V2.Options false false (flag_given (lit "--force") (lit "-f") args)
                  (flag_given (lit "--dry-run") (lit "-n") args)) w.
Proof.
  intros Hacc Hpos Hhelp Hversion.
  assert (Hparse : V2.parseArgs args w = (Normal (options_of args, positionals args), w)).
  { rewrite (parseArgs_accepted args w Hacc). by rewrite Hpos. }
  rewrite (main_single _ _ _ _ _ _ _ _ Hparse filePath executable Hhelp Hversion Hpos).
  unfold options_of. by rewrite Hhelp, Hversion.
Qed.

(** X13: without values, a descriptor that is missing or does not parse is
    fatal: one line on the error stream, exit code 1, no file changed. *)
Theorem unreadable_manifest_is_fatal (args : list jsstring) (w : world) :
  Forall accepted args ->
  positionals args = [] ->
  flag_given (lit "--help") (lit "-h") args = false ->
  flag_given (lit "--version") (lit "-v") args = false ->
  files w !! lit "package.json" = None
  \/ (exists f, files w !! lit "package.json" = Some f /\ JSON_parse (content f) = None) ->
  main args w
  = (Exit 1, World (files w)
               (console w ++ [(Stderr, lit "Error: Could not read package.json")])).
Proof.
  intros Hacc Hpos Hhelp Hversion Hbad.
  assert (Hparse : V2.parseArgs args w = (Normal (options_of args, positionals args), w)).
  { rewrite (parseArgs_accepted args w Hacc). by rewrite Hpos. }
  apply (main_unreadable _ _ _ _ _ _ _ _ Hparse Hhelp Hversion Hpos Hbad).
Qed.

(** X14: without values and with a descriptor that parses, [main] exits
    with code 1 and two lines on the error stream when the descriptor has
    no [bang] field, before any file is touched; and otherwise it is the
    batch on the entries of that field, in their order, with force and dry
    run as the flags say. *)
Theorem manifest_run (args : list jsstring) (f : file) (packageJson : json) (w : world) :
  Forall accepted args ->
  positionals args = [] ->
  flag_given (lit "--help") (lit "-h") args = false ->
  flag_given (lit "--version") (lit "-v") args = false ->
  files w !! lit "package.json" = Some f ->
  JSON_parse (content f) = Some packageJson ->
  main args w
  = match bang_entries packageJson with
    | None =>
        (Exit 1,
         World (files w)
           (console w
            ++ [(Stderr, lit "Error: No " ++ [DQUOTE] ++ lit "bang" ++ [DQUOTE]
                         ++ lit " configuration found in package.json");
                (Stderr, lit "Add a " ++ [DQUOTE] ++ lit "bang" ++ [DQUOTE]
                         ++ lit " field with file -> executable mappings")]))
    | Some entries =>
        process_batch entries
          (V2.Options false false (flag_given (lit "--force") (lit "-f") args)
                      (flag_given (lit "--dry-run") (lit "-n") args)) w
    end.
Proof.
  intros Hacc Hpos Hhelp Hversion Hf Hjson.
  assert (Hparse : V2.parseArgs args w = (Normal (options_of args, positionals args), w)).
  { rewrite (parseArgs_accepted args w Hacc). by rewrite Hpos. }
  rewrite (main_descriptor _ _ _ _ _ _ _ _ Hparse f packageJson Hhelp Hversion Hpos Hf Hjson).
  unfold options_of. by rewrite Hhelp, Hversion.
Qed.

(** X15: [--dry-run] or [-n] anywhere on the command line, and no run of
    [main] changes a file: not in text, not in mode, whatever the other
    arguments, the manifest and the files are. *)
Theorem dry_run_flag_keeps_files (args : list jsstring) (w : world) :
  flag_given (lit "--dry-run") (lit "-n") args = true ->
  files (main args w).2 = files w.
Proof.
  intros Hdry.
  destruct (main_outcomes args w)
    as [(code & w' & _ & -> & Hfiles)|[(p & e & ->)|(entries & ->)]].
  - done.
  - by apply addShebang_dry_files.
  - by apply process_batch_dry_files.
Qed.

(** X16: without [--force] and [-f] on the command line, no run of [main]
    changes a file that starts with [#!]. *)
Theorem no_force_flag_keeps_shebangs (args : list jsstring) (path : jsstring) (w : world) :
  flag_given (lit "--force") (lit "-f") args = false ->
  has_shebang w path ->
  files (main args w).2 !! path = files w !! path.
Proof.
  intros Hforce Hhas.
  destruct (main_outcomes args w)
    as [(code & w' & _ & -> & Hfiles)|[(p & e & ->)|(entries & ->)]].
  - cbn [snd]. by rewrite Hfiles.
  - by apply addShebang_no_force_keeps.
  - by apply process_batch_no_force_keeps.
Qed.

End MainMore.

Lemma wrong_count_is_fatal_witness :
  V2.main (lit "1.0.0") unit (fun _ => None) (fun _ => None)
    [lit "--help"; lit "b.js"] sample_world
  = (console_error (lit "Error: " ++ lit "Invalid number of arguments");;
     V2.printUsage console_error;;
     process_exit 1) sample_world
  /\ (V2.main (lit "1.0.0") unit (fun _ => None) (fun _ => None)
        [lit "--help"; lit "b.js"] sample_world).1 = Exit 1
  /\ files (V2.main (lit "1.0.0") unit (fun _ => None) (fun _ => None)
              [lit "--help"; lit "b.js"] sample_world).2 = files sample_world.
Proof.
  apply (wrong_count_is_fatal (lit "1.0.0") unit (fun _ => None) (fun _ => None)
           [lit "--help"; lit "b.js"] sample_world).
  - accepted_tokens.
  - vm_compute. discriminate.
  - vm_compute. discriminate.
Defined.

Lemma help_wins_witness :
  V2.main (lit "1.0.0") unit (fun _ => None) (fun _ => None)
    [lit "gone.js"; lit "node"; lit "-f"; lit "-h"] sample_world
  = (V2.printUsage console_log;; process_exit 0) sample_world
  /\ (V2.main (lit "1.0.0") unit (fun _ => None) (fun _ => None)
        [lit "gone.js"; lit "node"; lit "-f"; lit "-h"] sample_world).1 = Exit 0
  /\ files (V2.main (lit "1.0.0") unit (fun _ => None) (fun _ => None)
              [lit "gone.js"; lit "node"; lit "-f"; lit "-h"] sample_world).2
     = files sample_world.
Proof.
  apply (help_wins (lit "1.0.0") unit (fun _ => None) (fun _ => None)
           [lit "gone.js"; lit "node"; lit "-f"; lit "-h"] sample_world).
  - accepted_tokens.
  - right. vm_compute; reflexivity.
  - vm_compute; reflexivity.
Defined.

Lemma version_prints_witness :
  V2.main (lit "1.0.0") unit (fun _ => None) (fun _ => None)
    [lit "--version"; lit "-n"] sample_world
  = (Exit 0, World (files sample_world) (console sample_world ++ [(Stdout, lit "1.0.0")])).
Proof.
  apply (version_prints (lit "1.0.0") unit (fun _ => None) (fun _ => None)
           [lit "--version"; lit "-n"] sample_world).
  - accepted_tokens.
  - left. vm_compute; reflexivity.
  - vm_compute; reflexivity.
  - vm_compute; reflexivity.
Defined.

Lemma single_target_run_witness :
  V2.main (lit "1.0.0") unit (fun _ => None) (fun _ => None)
    [lit "-f"; lit "a.sh"; lit "-n"; lit "-S node"] sample_world
  = V2.addShebang (lit "a.sh") (lit "-S node")
      (V2.Options false false
         (flag_given (lit "--force") (lit "-f")
            [lit "-f"; lit "a.sh"; lit "-n"; lit "-S node"])
         (flag_given (lit "--dry-run") (lit "-n")
            [lit "-f"; lit "a.sh"; lit "-n"; lit "-S node"])) sample_world.
Proof.
  apply (single_target_run (lit "1.0.0") unit (fun _ => None) (fun _ => None)
           [lit "-f"; lit "a.sh"; lit "-n"; lit "-S node"] (lit "a.sh") (lit "-S node")
           sample_world).
  - accepted_tokens.
  - vm_compute; reflexivity.
  - vm_compute; reflexivity.
  - vm_compute; reflexivity.
Defined.

Lemma unreadable_manifest_is_fatal_witness :
  V2.main (lit "1.0.0") unit (fun _ => None) (fun _ => None) [lit "--force"] sample_world
  = (Exit 1, World (files sample_world)
               (console sample_world
                ++ [(Stderr, lit "Error: Could not read package.json")])).
Proof.
  apply (unreadable_manifest_is_fatal (lit "1.0.0") unit (fun _ => None) (fun _ => None)
           [lit "--force"] sample_world).
  - accepted_tokens.
  - vm_compute; reflexivity.
  - vm_compute; reflexivity.
  - vm_compute; reflexivity.
  - left. vm_compute; reflexivity.
Defined.

Lemma manifest_run_witness :
  V2.main (lit "1.0.0") _ (sample_parse sample_targets) Some [lit "-n"]
    sample_manifest_world
  = process_batch sample_targets
      (V2.Options false false (flag_given (lit "--force") (lit "-f") [lit "-n"])
                  (flag_given (lit "--dry-run") (lit "-n") [lit "-n"]))
      sample_manifest_world.
Proof.
  apply (manifest_run (lit "1.0.0") _ (sample_parse sample_targets) Some [lit "-n"]
           (text_file (lit "{}") 420) sample_targets sample_manifest_world).
  - accepted_tokens.
  - vm_compute; reflexivity.
  - vm_compute; reflexivity.
  - vm_compute; reflexivity.
  - vm_compute; reflexivity.
  - reflexivity.
Defined.

Lemma dry_run_flag_keeps_files_witness :
  files (V2.main (lit "1.0.0") _ (sample_parse sample_targets) Some
           [lit "--force"; lit "--dry-run"] sample_manifest_world).2
  = files sample_manifest_world.
Proof.
  apply (dry_run_flag_keeps_files (lit "1.0.0") _ (sample_parse sample_targets) Some
           [lit "--force"; lit "--dry-run"] sample_manifest_world).
  vm_compute; reflexivity.
Defined.

Lemma no_force_flag_keeps_shebangs_witness :
  files (V2.main (lit "1.0.0") unit (fun _ => None) (fun _ => None)
           [lit "a.sh"; lit "node"] sample_world).2 !! lit "a.sh"
  = files sample_world !! lit "a.sh".
Proof.
  apply (no_force_flag_keeps_shebangs (lit "1.0.0") unit (fun _ => None) (fun _ => None)
           [lit "a.sh"; lit "node"] (lit "a.sh") sample_world).
  - vm_compute; reflexivity.
  - exists (text_file bash_script 420). split; vm_compute; reflexivity.
Defined.

(** ** The two revisions of the entry point *)

(** The earlier applier is the later one without force and dry run. *)
Lemma addShebang_revisions (filePath executable : jsstring) (w : world) :
  V1.addShebang filePath executable w
  = V2.addShebang filePath executable (V2.Options false false false false) w.
Proof.
  destruct (files w !! filePath) as [f|] eqn:Hf.
  - rewrite (addShebang_found _ _ _ _ f Hf). cbn [V2.dryRun V2.force negb].
    unfold V1.addShebang, bind, existsSync.
    rewrite Hf, bool_decide_eq_true_2 by eauto.
    cbn [negb ret]. unfold readFileSync. rewrite Hf.
    by destruct (startsWith _ _).
  - rewrite addShebang_missing by done.
    unfold V1.addShebang, bind, existsSync. rewrite Hf.
    by rewrite bool_decide_eq_false_2 by (by intros [? ?]).
Qed.

(** Two loops with bodies that do the same do the same. *)
Lemma for_of_ext {A} (body body' : A -> proc unit) (xs : list A) :
  (forall x w, body x w = body' x w) ->
  forall w, for_of xs body w = for_of xs body' w.
Proof.
  intros Hbody. induction xs as [|x xs IH]; intros w; [done|].
  cbn [for_of]. unfold bind. rewrite Hbody.
  by destruct (body' x w) as [[[]| |] w1].
Qed.

(** Values only: no flag is set. *)
Lemma options_of_values (args : list jsstring) :
  Forall (fun t => t ∉ recognized_options) args ->
  options_of args = V2.Options false false false false.
Proof.
  intros Hall. rewrite Forall_forall in Hall.
  assert (Hflag : forall long short,
            long ∈ recognized_options -> short ∈ recognized_options ->
            flag_given long short args = false).
  { intros long short Hlong Hshort. apply bool_decide_eq_false_2.
    intros [Hin|Hin]; by apply (Hall _ Hin). }
  unfold options_of.
  by rewrite !Hflag by (apply list_elem_of_In; vm_compute; tauto).
Qed.

(** X18: the two revisions of [main] agree where the earlier one does
    work: without arguments (the manifest run), and with a file and a
    command that are no flags and not of the form of an option.  Same
    completion, same files, same console. *)
Theorem main_revisions_agree (pkg_version : jsstring) (json : Type)
    (JSON_parse : jsstring -> option json)
    (bang_entries : json -> option (list (jsstring * jsstring))) :
  (forall w,
     V1.main pkg_version json JSON_parse bang_entries [] w
     = V2.main pkg_version json JSON_parse bang_entries [] w)
  /\ (forall filePath executable w,
        filePath ∉ recognized_options -> match_option filePath = false ->
        executable ∉ recognized_options -> match_option executable = false ->
        V1.main pkg_version json JSON_parse bang_entries [filePath; executable] w
        = V2.main pkg_version json JSON_parse bang_entries [filePath; executable] w).
Proof.
  split.
  - intros w.
    assert (Hparse : V2.parseArgs [] w
                     = (Normal (V2.Options false false false false, []), w))
      by reflexivity.
    unfold V1.main. unfold bind at 1. unfold try_catch, bind at 1, readFileSync.
    destruct (files w !! lit "package.json") as [f|] eqn:Hf;
      [destruct (JSON_parse (content f)) as [packageJson|] eqn:Hjson|].
    + rewrite (main_descriptor pkg_version _ _ _ _ _ _ _ Hparse f packageJson
                 eq_refl eq_refl eq_refl Hf Hjson).
      unfold ret. destruct (bang_entries packageJson) as [entries|].
      * apply for_of_ext. intros [p e] w'. apply addShebang_revisions.
      * unfold bind, console_error, print. cbn [files console].
        by rewrite <- app_assoc.
    + by rewrite (main_unreadable pkg_version _ _ _ _ _ _ _ Hparse eq_refl eq_refl eq_refl)
        by (right; eauto).
    + by rewrite (main_unreadable pkg_version _ _ _ _ _ _ _ Hparse eq_refl eq_refl eq_refl)
        by (by left).
  - intros filePath executable w Hp Hpm He Hem.
    assert (Hparse : V2.parseArgs [filePath; executable] w
                     = (Normal (V2.Options false false false false,
                                [filePath; executable]), w)).
    { rewrite parseArgs_accepted by (repeat (constructor; [by right|]); constructor).
      rewrite !positionals_other by done. unfold positionals at 1 2. rewrite filter_nil.
      cbn [List.length Nat.eqb negb andb].
      by rewrite options_of_values by (repeat (constructor; [done|]); constructor). }
    rewrite (main_single _ _ _ _ _ _ _ _ Hparse filePath executable eq_refl eq_refl eq_refl).
    apply addShebang_revisions.
Qed.

Lemma main_revisions_agree_witness :
  V1.main (lit "1.0.0") unit (fun _ => None) (fun _ => None)
    [lit "b.js"; lit "-S node"] sample_world
  = V2.main (lit "1.0.0") unit (fun _ => None) (fun _ => None)
      [lit "b.js"; lit "-S node"] sample_world.
Proof.
  apply (proj2 (main_revisions_agree (lit "1.0.0") unit (fun _ => None) (fun _ => None))
           (lit "b.js") (lit "-S node") sample_world).
  - decide_not_in.
  - reflexivity.
  - decide_not_in.
  - reflexivity.
Defined.

(** ** The shebang line and its report *)

(** X19: a leading [-S] with white space after it is redundant: the
    command with it and the command without it give the same shebang line,
    for a command that does not start with white space or with [-S]
    itself (one [-S] only is stripped). *)
Theorem createShebang_redundant_dashS (ws command : jsstring) :
  ws <> [] ->
  Forall (fun c => isWhiteSpace c = true) ws ->
  match command with c :: _ => isWhiteSpace c = false | [] => True end ->
  startsWith command (lit "-S") = false ->
  V2.createShebang (lit "-S" ++ ws ++ command) = V2.createShebang command.
Proof.
  intros Hne Hws Hhead Hplain. unfold V2.createShebang.
  rewrite replace_dashS_strip by done.
  rewrite (replace_dashS_keep command); [done|].
  intros c rest ->. by rewrite startsWith_app in Hplain.
Qed.

Lemma createShebang_redundant_dashS_witness :
  V2.createShebang (lit "-S" ++ [SPACE; 9] ++ lit "uv run --script")
  = V2.createShebang (lit "uv run --script").
Proof.
  apply (createShebang_redundant_dashS [SPACE; 9] (lit "uv run --script")).
  - discriminate.
  - repeat constructor.
  - reflexivity.
  - reflexivity.
Defined.

Lemma trimEnd_line_feed (s : jsstring) (c : N) :
  isWhiteSpace c = false ->
  trimEnd ((s ++ [c]) ++ [LF]) = s ++ [c].
Proof.
  intros Hc. unfold trimEnd. rewrite !rev_app_distr. cbn [rev app trimStart].
  change (isWhiteSpace LF) with true. cbn iota. rewrite Hc.
  change (c :: rev s) with (rev [c] ++ rev s).
  by rewrite <- rev_app_distr, rev_involutive.
Qed.

(** X20: the shebang that the report quotes is the line that is written,
    when the command ends with a character that is no white space:
    [trim] takes the line feed off the line and nothing else. *)
Theorem report_quotes_written_line (executable : jsstring) (c : N) :
  last (replace_dashS executable) = Some c ->
  isWhiteSpace c = false ->
  trim (V2.createShebang executable ++ [LF]) = V2.createShebang executable.
Proof.
  intros Hlast Hc. apply last_Some in Hlast as [body Hbody].
  unfold trim.
  assert (Hstart : trimStart (V2.createShebang executable ++ [LF])
                   = V2.createShebang executable ++ [LF]).
  { apply trimStart_head. unfold V2.createShebang. by destruct (includes _ _). }
  rewrite Hstart.
  assert (Hshape : exists s, V2.createShebang executable = s ++ [c]).
  { unfold V2.createShebang. rewrite Hbody.
    destruct (includes _ _); eexists; by rewrite app_assoc. }
  destruct Hshape as [s ->]. by apply trimEnd_line_feed.
Qed.

Lemma report_quotes_written_line_witness :
  trim (V2.createShebang (lit "uv run --script") ++ [LF])
  = V2.createShebang (lit "uv run --script").
Proof.
  apply (report_quotes_written_line (lit "uv run --script") 116).
  - reflexivity.
  - reflexivity.
Defined.

(** ** The earlier entry point *)

(** X21: in the earlier revision a command line of one argument, or of
    more than two, never changes a file, and the process exits: with code
    0 exactly when the one argument is [-h], [--help], [-v] or [--version],
    and with code 1 otherwise, so also for [--force] and [--dry-run], which
    that revision does not know. *)
Theorem earlier_main_usage (pkg_version : jsstring) (json : Type)
    (JSON_parse : jsstring -> option json)
    (bang_entries : json -> option (list (jsstring * jsstring)))
    (args : list jsstring) (w : world) :
  List.length args <> 0%nat ->
  List.length args <> 2%nat ->
  files (V1.main pkg_version json JSON_parse bang_entries args w).2 = files w
  /\ (V1.main pkg_version json JSON_parse bang_entries args w).1
     = if bool_decide (args ∈ [[lit "-h"]; [lit "--help"]; [lit "-v"]; [lit "--version"]])
       then Exit 0 else Exit 1.
Proof.
  intros Hzero Htwo.
  destruct args as [|arg [|arg2 [|arg3 args]]]; try done.
  - unfold V1.main.
    destruct (bool_decide (arg = lit "-h") || bool_decide (arg = lit "--help")) eqn:E1;
      [|destruct (bool_decide (arg = lit "-v") || bool_decide (arg = lit "--version"))
          eqn:E2].
    + split; [done|]. rewrite bool_decide_eq_true_2; [done|].
      apply orb_true_iff in E1 as [->%bool_decide_eq_true| ->%bool_decide_eq_true];
        apply list_elem_of_In; simpl; tauto.
    + split; [done|]. rewrite bool_decide_eq_true_2; [done|].
      apply orb_true_iff in E2 as [->%bool_decide_eq_true| ->%bool_decide_eq_true];
        apply list_elem_of_In; simpl; tauto.
    + split; [done|]. rewrite bool_decide_eq_false_2; [done|].
      apply orb_false_iff in E1 as [H1%bool_decide_eq_false H2%bool_decide_eq_false].
      apply orb_false_iff in E2 as [H3%bool_decide_eq_false H4%bool_decide_eq_false].
      rewrite !elem_of_cons, elem_of_nil. intros [?|[?|[?|[?|[]]]]]; congruence.
  - split; [done|]. rewrite bool_decide_eq_false_2; [done|].
    rewrite !elem_of_cons, elem_of_nil. intros [?|[?|[?|[?|[]]]]]; discriminate.
Qed.

Lemma earlier_main_usage_witness :
  files (V1.main (lit "1.0.0") unit (fun _ => None) (fun _ => None)
           [lit "--force"] sample_world).2 = files sample_world
  /\ (V1.main (lit "1.0.0") unit (fun _ => None) (fun _ => None)
        [lit "--force"] sample_world).1
     = if bool_decide ([lit "--force"]
                       ∈ [[lit "-h"]; [lit "--help"]; [lit "-v"]; [lit "--version"]])
       then Exit 0 else Exit 1.
Proof.
  apply (earlier_main_usage (lit "1.0.0") unit (fun _ => None) (fun _ => None)
           [lit "--force"] sample_world).
  - discriminate.
  - discriminate.
Defined.
